(** * covid19_datasets.uk_area_stats: a shallow embedding

    The module [uk_area_stats.py] downloads three CSV snapshots (England,
    Wales, Scotland), reshapes each one into an area-by-date frame and keeps
    the three frames in class attributes of [UKCovid19Data].

    Layout of this development:
    - [Calendar]: calendar days and the ISO date reader behind [pd.to_datetime];
    - [Pandas]: the fragment of pandas/numpy the module calls, on a
      column-major frame whose cells are IEEE doubles (NaN is the missing
      marker, exactly as in pandas);
    - the three functions of the module and the class [UKCovid19Data], the
      class attributes being an explicit store threaded through a small
      state-and-exception monad;
    - the properties. *)

From Stdlib Require Import PrimFloat ZArith Lia Bool String Ascii List.
From Stdlib Require Import Sorting.Sorted Sorting.Permutation.
From Stdlib Require OrderedTypeEx.
Import ListNotations.

Local Open Scope Z_scope.

(* ------------------------------------------------------------------ *)
(** ** Calendar days *)

Module Calendar.

(** A column label is a [Timestamp] at midnight; it is represented by its
    day number, counted from 1970-01-01. *)
Definition Timestamp := Z.

Definition is_leap (y : Z) : bool :=
  ((y mod 4 =? 0) && negb (y mod 100 =? 0)) || (y mod 400 =? 0).

Definition days_in_month (y m : Z) : Z :=
  if m =? 2 then (if is_leap y then 29 else 28)
  else if (m =? 4) || (m =? 6) || (m =? 9) || (m =? 11) then 30
  else 31.

(** Day number of the proleptic Gregorian date [y]-[m]-[d]. *)
Definition days_from_civil (y m d : Z) : Timestamp :=
  let y' := if m <=? 2 then y - 1 else y in
  let era := y' / 400 in
  let yoe := y' - era * 400 in
  let mp := if 2 <? m then m - 3 else m + 9 in
  let doy := (153 * mp + 2) / 5 + d - 1 in
  let doe := yoe * 365 + yoe / 4 - yoe / 100 + doy in
  era * 146097 + doe - 719468.

Definition digit (c : ascii) : option Z :=
  let n := Z.of_nat (nat_of_ascii c) in
  if (48 <=? n) && (n <=? 57) then Some (n - 48) else None.

Definition is_dash (c : ascii) : bool := (nat_of_ascii c =? 45)%nat.

Definition number (ds : list ascii) : option Z :=
  fold_left
    (fun acc c =>
       match acc, digit c with
       | Some n, Some k => Some (10 * n + k)
       | _, _ => None
       end)
    ds (Some 0).

(** [pd.to_datetime] on one text cell.  The feeds publish dates as
    [YYYY-MM-DD]; that format is read here, and any other text is the
    parse failure of pandas. *)
Definition to_datetime (s : string) : option Timestamp :=
  match list_ascii_of_string s with
  | [y1; y2; y3; y4; s1; m1; m2; s2; d1; d2] =>
      if is_dash s1 && is_dash s2 then
        match number [y1; y2; y3; y4], number [m1; m2], number [d1; d2] with
        | Some y, Some m, Some d =>
            if (1 <=? m) && (m <=? 12) && (1 <=? d) && (d <=? days_in_month y m)
            then Some (days_from_civil y m d)
            else None
        | _, _, _ => None
        end
      else None
  | _ => None
  end.

(** [pd.date_range(lo, hi, freq='D')]: every day from [lo] to [hi], both
    included; empty when [hi < lo]. *)
Definition date_range (lo hi : Timestamp) : list Timestamp :=
  map (fun k => lo + Z.of_nat k) (seq 0 (Z.to_nat (hi - lo + 1))).

End Calendar.

(* ------------------------------------------------------------------ *)
(** ** The pandas and numpy fragment *)

Module Pandas.
Import Calendar.

(** Row label of an area-by-date frame: (Country, Area name). *)
Definition RowKey := (string * string)%type.

(** One column: its label and its cells, one per row of the frame. *)
Definition Column := (Timestamp * list float)%type.

(** A frame is stored by columns, in column order; labels may repeat, as
    pandas allows. *)
Record DataFrame := mkDataFrame {
  index : list RowKey;
  columns : list Column
}.

Definition labels (df : DataFrame) : list Timestamp := map fst (columns df).

(** [fillna(v)] on one cell. *)
Definition fillna_cell (v x : float) : float := if is_nan x then v else x.

(** [df.fillna(v)]. *)
Definition fillna (v : float) (df : DataFrame) : DataFrame :=
  mkDataFrame (index df)
              (map (fun c : Column => (fst c, map (fillna_cell v) (snd c))) (columns df)).

(** [Index.min()] and [Index.max()]; nothing to return on an empty index. *)
Definition index_min (l : list Timestamp) : option Timestamp :=
  match l with
  | [] => None
  | x :: r => Some (fold_left Z.min r x)
  end.

Definition index_max (l : list Timestamp) : option Timestamp :=
  match l with
  | [] => None
  | x :: r => Some (fold_left Z.max r x)
  end.

(** [np.sort]: ascending, repeated values kept. *)
Fixpoint insert_sorted (x : Z) (l : list Z) : list Z :=
  match l with
  | [] => [x]
  | y :: r => if x <=? y then x :: l else y :: insert_sorted x r
  end.

Definition np_sort (l : list Z) : list Z := fold_right insert_sorted [] l.

(** [np.unique]: ascending, one copy of each value. *)
Fixpoint drop_repeats (l : list Z) : list Z :=
  match l with
  | [] => []
  | x :: r =>
      match r with
      | y :: _ => if x =? y then drop_repeats r else x :: drop_repeats r
      | [] => [x]
      end
  end.

Definition np_unique (l : list Z) : list Z := drop_repeats (np_sort l).

Definition mem (x : Z) (l : list Z) : bool := existsb (Z.eqb x) l.

(** [np.setdiff1d(a, b)]: the sorted, unique values of [a] that are not in [b]. *)
Definition setdiff1d (a b : list Z) : list Z :=
  filter (fun x => negb (mem x b)) (np_unique a).

(** [df[d] = v] with a scalar [v]: every column labelled [d] is overwritten;
    when there is none, a new last column is appended. *)
Definition setitem (df : DataFrame) (d : Timestamp) (v : float) : DataFrame :=
  let fresh := repeat v (length (index df)) in
  if mem d (labels df)
  then mkDataFrame (index df)
         (map (fun c : Column => if fst c =? d then (d, fresh) else c) (columns df))
  else mkDataFrame (index df) (columns df ++ [(d, fresh)]).

(** [df[ls]] with a list of labels: for each requested label, in order,
    every column carrying it.  (A label that the frame lacks is a KeyError
    in pandas; the callers below only request labels of the frame itself.) *)
Definition getitem (df : DataFrame) (ls : list Timestamp) : DataFrame :=
  mkDataFrame (index df)
    (flat_map (fun l => filter (fun c : Column => fst c =? l) (columns df)) ls).

(** Cell access by labels: first row labelled [k], first column labelled [d]. *)
Fixpoint position (k : RowKey) (ks : list RowKey) : option nat :=
  match ks with
  | [] => None
  | k' :: r =>
      if (String.eqb (fst k) (fst k') && String.eqb (snd k) (snd k'))%bool
      then Some O
      else option_map S (position k r)
  end.

Fixpoint column_of (d : Timestamp) (cs : list Column) : option (list float) :=
  match cs with
  | [] => None
  | c :: r => if fst c =? d then Some (snd c) else column_of d r
  end.

Definition cell (df : DataFrame) (k : RowKey) (d : Timestamp) : option float :=
  match position k (index df), column_of d (columns df) with
  | Some i, Some vs => nth_error vs i
  | _, _ => None
  end.

(** *** Grouping and pivoting *)

(** One long-format observation: row key, date, value. *)
Definition Entry := (RowKey * Timestamp * float)%type.

Definition key_eqb (a b : RowKey) : bool :=
  (String.eqb (fst a) (fst b) && String.eqb (snd a) (snd b))%bool.

(** Order of a two-level index: by first level, then by second. *)
Definition key_compare (a b : RowKey) : comparison :=
  match String.compare (fst a) (fst b) with
  | Eq => String.compare (snd a) (snd b)
  | c => c
  end.

Fixpoint insert_key (k : RowKey) (l : list RowKey) : list RowKey :=
  match l with
  | [] => [k]
  | k' :: r =>
      match key_compare k k' with
      | Lt => k :: l
      | Eq => l
      | Gt => k' :: insert_key k r
      end
  end.

(** The distinct keys, ascending. *)
Definition sorted_keys (l : list RowKey) : list RowKey := fold_right insert_key [] l.

(** The default [aggfunc] of [pivot_table]: the mean of the values that are
    not NaN, and NaN when there is none. *)
Definition mean (vs : list float) : float :=
  let present := filter (fun v => negb (is_nan v)) vs in
  match present with
  | [] => nan
  | _ => (fold_left add present 0 / fold_left (fun n _ => n + 1) present 0)%float
  end.

Definition group (es : list Entry) (k : RowKey) (d : Timestamp) : list float :=
  map snd (filter (fun e : Entry => key_eqb (fst (fst e)) k && (snd (fst e) =? d))%bool es).

(** [pivot_table(index=keys, columns=date, values=value)]: one aggregated
    cell per (key, date) group; groups whose aggregate is NaN are dropped
    before the frame is laid out, so a row or a column exists only if one
    of its cells is reported; rows and columns come out ascending; a cell
    without a group is NaN. *)
Definition pivot_table (es : list Entry) : DataFrame :=
  let agg k d := mean (group es k d) in
  let kept := filter (fun e : Entry => negb (is_nan (agg (fst (fst e)) (snd (fst e))))) es in
  let keys := sorted_keys (map (fun e : Entry => fst (fst e)) kept) in
  let dates := np_unique (map (fun e : Entry => snd (fst e)) kept) in
  mkDataFrame keys (map (fun d => (d, map (fun k => agg k d) keys)) dates).

(** *** Positional column access *)

Definition iloc_col (cs : list Column) (i : nat) : list float :=
  snd (nth i cs (0, [])).

Fixpoint iloc_set_col (cs : list Column) (i : nat) (vs : list float) : list Column :=
  match cs, i with
  | [], _ => []
  | c :: r, O => (fst c, vs) :: r
  | c :: r, S j => c :: iloc_set_col r j vs
  end.

(** Difference of two series over the same rows. *)
Definition series_sub (a b : list float) : list float :=
  map (fun p => (fst p - snd p)%float) (combine a b).

(** Python's [range(start, stop, -1)] over non-negative indices,
    [start] being given as [len - 1] computed from [len]. *)
Definition range_down (len stop : nat) : list nat :=
  rev (seq (S stop) (len - 1 - stop)).

(** *** Concatenation *)

Fixpoint nodupb (l : list Timestamp) : bool :=
  match l with
  | [] => true
  | x :: r => negb (mem x r) && nodupb r
  end.

Fixpoint list_eqb (a b : list Timestamp) : bool :=
  match a, b with
  | [], [] => true
  | x :: a', y :: b' => (x =? y) && list_eqb a' b'
  | _, _ => false
  end.

(** Labels in order of first appearance. *)
Definition union_labels (ls : list Timestamp) : list Timestamp :=
  fold_left (fun acc d => if mem d acc then acc else acc ++ [d]) ls [].

(** The cells a frame contributes to column [d] of an outer join. *)
Definition reindexed (f : DataFrame) (d : Timestamp) : list float :=
  match column_of d (columns f) with
  | Some vs => vs
  | None => repeat nan (length (index f))
  end.

Fixpoint somes {A : Type} (l : list (option A)) : list A :=
  match l with
  | [] => []
  | Some a :: r => a :: somes r
  | None :: r => somes r
  end.

(** [pd.concat(objs)] along the rows with an outer join of the columns.
    [None] entries are skipped, and it is an error when nothing is left.
    Frames whose labels are unique are aligned on the union of the labels;
    frames with repeated labels can only be stacked position by position,
    which pandas does when all column indexes are identical, and refuses
    otherwise. *)
Definition concat (objs : list (option DataFrame)) : option DataFrame :=
  match somes objs with
  | [] => None
  | f0 :: rest =>
      let frames := f0 :: rest in
      let rows := flat_map index frames in
      if forallb (fun f => nodupb (labels f)) frames then
        Some (mkDataFrame rows
                (map (fun d => (d, flat_map (fun f => reindexed f d) frames))
                     (union_labels (flat_map labels frames))))
      else if forallb (fun f => list_eqb (labels f) (labels f0)) rest then
        Some (mkDataFrame rows
                (map (fun i => (nth i (labels f0) 0,
                                flat_map (fun f => iloc_col (columns f) i) frames))
                     (seq 0 (length (labels f0)))))
      else None
  end.

End Pandas.

Import Calendar Pandas.

(* ------------------------------------------------------------------ *)
(** ** [_backfill_missing_data] *)

(** Raises (here [None]) on a frame without columns: [df.columns.min()] has
    no date to hand to [pd.date_range]. *)
Definition _backfill_missing_data (df : DataFrame) : option DataFrame :=
  let df := fillna 0%float df in
  match index_min (labels df), index_max (labels df) with
  | Some lo, Some hi =>
      let all_days := date_range lo hi in
      let missing_days := setdiff1d all_days (labels df) in
      let df := fold_left (fun df missing_day => setitem df missing_day 0%float)
                          missing_days df in
      Some (getitem df (np_sort (labels df)))
  | _, _ => None
  end.

(* ------------------------------------------------------------------ *)
(** ** Downloaded tables *)

(** The columns of the England/Wales feed that the module reads.  An empty
    numeric field arrives as NaN. *)
Record CasesRow := mkCasesRow {
  areaCode : string;
  areaName : string;
  date : string;
  newCasesBySpecimenDate : float
}.

(** A field of the Scotland feed: the placeholder [*], or a number (an empty
    field being NaN).  [replace('*', 0.0).astype(float)] maps the first to 0.0
    and leaves the second alone. *)
Inductive Field :=
| Star
| Num (x : float).

Definition as_float (f : Field) : float :=
  match f with
  | Star => 0%float
  | Num x => x
  end.

(** The Scotland feed: a header naming the areas after the date column, and
    one record per date with one field per area. *)
Record ScotlandTable := mkScotlandTable {
  areas : list string;
  records : list (string * list Field)
}.

Inductive Csv :=
| CasesCsv (rows : list CasesRow)
| ScotlandCsv (t : ScotlandTable).

(* ------------------------------------------------------------------ *)
(** ** Process state, exceptions *)

(** The class attributes of [UKCovid19Data] (lines 88-91 of the module).
    [england_area_type] is not declared in the class body: it exists only
    once [__init__] has assigned it, hence the option. *)
Record ClassAttrs := mkClassAttrs {
  england_cases_data : option DataFrame;
  wales_cases_data : option DataFrame;
  wales_tests_data : option DataFrame;
  scotland_cases_data : option DataFrame;
  england_area_type : option string
}.

(** The process: the class attributes and the URLs requested so far.
    [england_loaded_with] is a history variable, never read by the program:
    the area type that was passed to the load which produced the current
    [england_cases_data]. *)
Record Process := mkProcess {
  cls : ClassAttrs;
  requests : list string;
  england_loaded_with : option string
}.

(** What the network answers to the [k]-th request of the process when it
    asks for [url]; [None] is a failed download. *)
Definition Net := nat -> string -> option Csv.

Inductive Exn :=
| AttributeError
| IndexError
| KeyError
| ValueError
| URLError.

Inductive Outcome (A : Type) :=
| Returned (a : A)
| Raised (e : Exn).
Arguments Returned {A} a.
Arguments Raised {A} e.

Definition M (A : Type) := Process -> Process * Outcome A.

Definition ret {A} (a : A) : M A := fun p => (p, Returned a).

Definition raise {A} (e : Exn) : M A := fun p => (p, Raised e).

Definition bind {A B} (m : M A) (k : A -> M B) : M B :=
  fun p =>
    match m p with
    | (p', Returned a) => k a p'
    | (p', Raised e) => (p', Raised e)
    end.

Notation "x <- m ;; k" := (bind m (fun x => k))
  (at level 61, m at next level, right associativity).
Notation "m ;;; k" := (bind m (fun _ => k))
  (at level 61, right associativity).

Definition lift {A} (o : Outcome A) : M A := fun p => (p, o).

Definition getattrs : M ClassAttrs := fun p => (p, Returned (cls p)).

Definition getattr_england_area_type : M string :=
  fun p =>
    match england_area_type (cls p) with
    | Some a => (p, Returned a)
    | None => (p, Raised AttributeError)
    end.

Definition setattr_england_area_type (a : string) : M unit :=
  fun p =>
    let c := cls p in
    (mkProcess (mkClassAttrs (england_cases_data c) (wales_cases_data c)
                             (wales_tests_data c) (scotland_cases_data c) (Some a))
               (requests p) (england_loaded_with p),
     Returned tt).

(** Assignment of [england_cases_data]; [a] is the area type of the load
    that built [df], kept in the history variable. *)
Definition setattr_england_cases_data (df : DataFrame) (a : string) : M unit :=
  fun p =>
    let c := cls p in
    (mkProcess (mkClassAttrs (Some df) (wales_cases_data c)
                             (wales_tests_data c) (scotland_cases_data c)
                             (england_area_type c))
               (requests p) (Some a),
     Returned tt).

Definition setattr_wales_cases_data (df : DataFrame) : M unit :=
  fun p =>
    let c := cls p in
    (mkProcess (mkClassAttrs (england_cases_data c) (Some df)
                             (wales_tests_data c) (scotland_cases_data c)
                             (england_area_type c))
               (requests p) (england_loaded_with p),
     Returned tt).

Definition setattr_scotland_cases_data (df : DataFrame) : M unit :=
  fun p =>
    let c := cls p in
    (mkProcess (mkClassAttrs (england_cases_data c) (wales_cases_data c)
                             (wales_tests_data c) (Some df)
                             (england_area_type c))
               (requests p) (england_loaded_with p),
     Returned tt).

(** [pd.read_csv(url)]: the request is issued, then it succeeds or raises. *)
Definition read_csv (net : Net) (url : string) : M Csv :=
  fun p =>
    let p' := mkProcess (cls p) (requests p ++ [url]) (england_loaded_with p) in
    match net (length (requests p)) url with
    | Some t => (p', Returned t)
    | None => (p', Raised URLError)
    end.

Definition is_none {A} (o : option A) : bool :=
  match o with
  | None => true
  | Some _ => false
  end.

Fixpoint traverse {A B} (f : A -> option B) (l : list A) : option (list B) :=
  match l with
  | [] => Some []
  | a :: r =>
      match f a, traverse f r with
      | Some b, Some bs => Some (b :: bs)
      | _, _ => None
      end
  end.

(* ------------------------------------------------------------------ *)
(** ** [_load_cases_dataset] *)

(** [UK_CASES_PATH] holds the token [TOREPLACE] once; the constant is kept
    as the text before and the text after the token. *)
Definition UK_CASES_PATH_before : string :=
  "https://api.coronavirus.data.gov.uk/v2/data?areaType=".

Definition UK_CASES_PATH_after : string :=
  "&metric=cumCasesBySpecimenDate&metric=newCasesBySpecimenDate&metric=cumCasesBySpecimenDateRate&format=csv".

(** [UK_CASES_PATH.replace("TOREPLACE", area_type)] *)
Definition cases_url (area_type : string) : string :=
  (UK_CASES_PATH_before ++ area_type ++ UK_CASES_PATH_after)%string.

Definition SCOTLAND_PATH : string :=
  "https://raw.githubusercontent.com/DataScienceScotland/COVID-19-Management-Information/master/export/health-boards/cumulative-cases.csv".

(** [country[0]] *)
Definition first_letter (country : string) : option string :=
  match country with
  | EmptyString => None
  | String c _ => Some (String c EmptyString)
  end.

(** Lines 39-51: everything [_load_cases_dataset] does to the downloaded
    rows. *)
Definition reshape_cases (country : string) (rows : list CasesRow) : Outcome DataFrame :=
  match first_letter country with
  | None => Raised IndexError
  | Some c =>
      let df := filter (fun r => String.prefix c (areaCode r)) rows in
      match traverse
              (fun r => option_map
                          (fun d => ((country, areaName r), d, newCasesBySpecimenDate r))
                          (to_datetime (date r)))
              df
      with
      | None => Raised ValueError
      | Some long =>
          match _backfill_missing_data (pivot_table long) with
          | Some df => Returned df
          | None => Raised ValueError
          end
      end
  end.

Definition _load_cases_dataset (net : Net) (area_type country : string) : M DataFrame :=
  t <- read_csv net (cases_url area_type) ;;
  match t with
  | CasesCsv rows => lift (reshape_cases country rows)
  | ScotlandCsv _ => raise KeyError
  end.

(* ------------------------------------------------------------------ *)
(** ** [_load_scotland_cases_dataset] *)

(** Lines 73-74: [for i in range(len(df.columns) - 1, 1, -1)]. *)
Definition cumulative_to_daily (cs : list Column) : list Column :=
  fold_left
    (fun cs i => iloc_set_col cs i (series_sub (iloc_col cs i) (iloc_col cs (i - 1))))
    (range_down (length cs) 1)
    cs.

(** Lines 62-78: transpose, dates of the first column as labels, fields to
    floats, differences, (Country, Area name) as row index.  A record that
    is shorter than the header is padded with NaN by the CSV reader. *)
Definition reshape_scotland (t : ScotlandTable) : Outcome DataFrame :=
  match traverse (fun r : string * list Field => to_datetime (fst r)) (records t) with
  | None => Raised ValueError
  | Some dates =>
      let row_of (r : string * list Field) :=
        map (fun j => as_float (nth j (snd r) (Num nan))) (seq 0 (length (areas t))) in
      let cs := combine dates (map row_of (records t)) in
      Returned (mkDataFrame (map (fun a => ("Scotland"%string, a)) (areas t))
                            (cumulative_to_daily cs))
  end.

Definition _load_scotland_cases_dataset (net : Net) : M DataFrame :=
  t <- read_csv net SCOTLAND_PATH ;;
  match t with
  | ScotlandCsv t => lift (reshape_scotland t)
  | CasesCsv _ => raise KeyError
  end.

(* ------------------------------------------------------------------ *)
(** ** The class [UKCovid19Data] *)

Module UKCovid19Data.

Definition ENGLAND_UPPER_TIER_AUTHORITY : string := "utla".
Definition ENGLAND_LOWER_TIER_AUTHORITY : string := "ltla".

(** The conditions are Python's short-circuit [or]: the attribute
    [england_area_type] is looked up only when the two tests before it are
    false. *)
Definition __init__ (net : Net) (force_load : bool) (england_area_type : string) : M unit :=
  c <- getattrs ;;
  reload <- (if is_none (england_cases_data c) then ret true
             else if force_load then ret true
             else cached <- getattr_england_area_type ;;
                  ret (negb (String.eqb cached england_area_type))) ;;
  (if reload : bool then
     setattr_england_area_type england_area_type ;;;
     df <- _load_cases_dataset net england_area_type "England" ;;
     setattr_england_cases_data df england_area_type
   else ret tt) ;;;
  c <- getattrs ;;
  (if is_none (wales_cases_data c) || is_none (wales_tests_data c) || force_load then
     df <- _load_cases_dataset net england_area_type "Wales" ;;
     setattr_wales_cases_data df
   else ret tt) ;;;
  c <- getattrs ;;
  (if is_none (scotland_cases_data c) || force_load then
     df <- _load_scotland_cases_dataset net ;;
     setattr_scotland_cases_data df
   else ret tt).

Definition get_cases_data : M DataFrame :=
  c <- getattrs ;;
  match concat [england_cases_data c; wales_cases_data c; scotland_cases_data c] with
  | Some df => ret (fillna 0%float df)
  | None => raise ValueError
  end.

End UKCovid19Data.

(** The process when the module has just been imported. *)
Definition startup : Process :=
  mkProcess (mkClassAttrs None None None None None) [] None.

(** One construction, seen as a transition of the process. *)
Definition construct (net : Net) (force_load : bool) (area_type : string)
    (p : Process) : Process :=
  fst (UKCovid19Data.__init__ net force_load area_type p).

Definition returns {A} (m : M A) (p : Process) : bool :=
  match snd (m p) with
  | Returned _ => true
  | Raised _ => false
  end.

(** States of a process that has only ever called the constructor, whether
    the calls returned or raised. *)
Inductive reachable (net : Net) : Process -> Prop :=
| reach_startup : reachable net startup
| reach_construct p force_load area_type :
    reachable net p ->
    reachable net (construct net force_load area_type p).

(** The same, when every call so far has returned. *)
Inductive reachable_quietly (net : Net) : Process -> Prop :=
| quiet_startup : reachable_quietly net startup
| quiet_construct p force_load area_type :
    reachable_quietly net p ->
    returns (UKCovid19Data.__init__ net force_load area_type) p = true ->
    reachable_quietly net (construct net force_load area_type p).

Definition populated (p : Process) : Prop :=
  england_cases_data (cls p) <> None /\
  wales_cases_data (cls p) <> None /\
  scotland_cases_data (cls p) <> None.

(* ------------------------------------------------------------------ *)
(** ** Vocabulary of the statements *)

(** Column [d] of a frame once its gaps are filled: the reported cells with
    NaN turned into 0.0 when the frame has the column, zeros on every row
    when it has not. *)
Definition filled_column (df : DataFrame) (d : Timestamp) : list float :=
  match column_of d (columns df) with
  | Some vs => map (fillna_cell 0%float) vs
  | None => repeat 0%float (length (index df))
  end.

(** Every day between the first and the last label is a label. *)
Definition date_complete (df : DataFrame) : Prop :=
  forall lo hi d,
    index_min (labels df) = Some lo ->
    index_max (labels df) = Some hi ->
    lo <= d <= hi -> In d (labels df).

(** One pass of the loop body at index [i]. *)
Definition difference_at (cs : list Column) (i : nat) : list Column :=
  iloc_set_col cs i (series_sub (iloc_col cs i) (iloc_col cs (i - 1))).


(* ------------------------------------------------------------------ *)
(** ** Sample inputs *)

(** A small frame with a gap, a NaN and columns out of order. *)
Definition gappy_frame : DataFrame :=
  mkDataFrame [("England", "Area A"); ("England", "Area B")]%string
              [(18630, [7; nan]%float); (18628, [5; 2]%float)].

(** Cumulative counts 10, 15, 15, 20 of one area on four consecutive days. *)
Definition four_days : list Column :=
  [(18327, [10%float]); (18328, [15%float]); (18329, [15%float]); (18330, [20%float])].

(** The Scotland feed for one health board over four consecutive days. *)
Definition fife_feed : ScotlandTable :=
  mkScotlandTable ["Fife"%string]
    [("2020-03-06", [Num 10]); ("2020-03-07", [Num 15]);
     ("2020-03-08", [Num 15]); ("2020-03-09", [Num 20])]%string.

(** The Scotland feed with no record for 2020-03-07. *)
Definition feed_with_gap : ScotlandTable :=
  mkScotlandTable ["Fife"; "Lothian"]%string
    [("2020-03-06", [Num 1; Star]); ("2020-03-08", [Num 4; Num 2])]%string.


(** The two downloaded rows of the England scenario; the area names differ
    by one letter. *)
Definition scenario_rows : list CasesRow :=
  [mkCasesRow "E1" "Areas A" "2021-01-01" 5;
   mkCasesRow "E1" "Area A" "2021-01-03" 7]%string.

(** One England row and one Wales row, as the cases feed serves them
    together. *)
Definition cases_feed (wales_count : float) : list CasesRow :=
  [mkCasesRow "E06000001" "Hartlepool" "2021-01-01" 5;
   mkCasesRow "W06000001" "Isle of Anglesey" "2021-01-01" wales_count]%string.

(** A network that always answers, and always the same. *)
Definition steady_net : Net :=
  fun _ url =>
    if String.eqb url SCOTLAND_PATH then Some (ScotlandCsv fife_feed)
    else Some (CasesCsv (cases_feed 3)).

(** A network whose cases feed reports one more Wales case from the fourth
    request on. *)
Definition drifting_net : Net :=
  fun k url =>
    if String.eqb url SCOTLAND_PATH then Some (ScotlandCsv fife_feed)
    else Some (CasesCsv (cases_feed (if (k <? 3)%nat then 3 else 4)%float)).

(** A network whose fourth request fails. *)
Definition flaky_net : Net :=
  fun k url => if (k =? 3)%nat then None else steady_net k url.

(** [df] is what [_load_cases_dataset(area_type, country)] returns when its
    download is the [k]-th request of the process. *)
Definition loaded_from (net : Net) (k : nat) (area_type country : string)
    (df : DataFrame) : Prop :=
  exists rows,
    net k (cases_url area_type) = Some (CasesCsv rows) /\
    reshape_cases country rows = Returned df.

(** The process after a first construction with the default arguments. *)
Definition first_use (net : Net) : Process :=
  construct net false UKCovid19Data.ENGLAND_UPPER_TIER_AUTHORITY startup.

(** England over 2021-01-01..05, Wales over the same days, Scotland over
    2021-01-03..07, as three cached frames. *)
Definition uneven_cache : Process :=
  mkProcess
    (mkClassAttrs
       (Some (mkDataFrame [("England", "Hartlepool")]%string
                (map (fun d => (d, [1%float])) (date_range 18628 18632))))
       (Some (mkDataFrame [("Wales", "Isle of Anglesey")]%string
                (map (fun d => (d, [2%float])) (date_range 18628 18632))))
       None
       (Some (mkDataFrame [("Scotland", "Fife")]%string
                (map (fun d => (d, [3%float])) (date_range 18630 18634))))
       (Some "utla"%string))
    [] (Some "utla"%string).

(** Once the England frame is there, so is the attribute. *)
Definition area_type_assigned (p : Process) : Prop :=
  england_cases_data (cls p) <> None -> england_area_type (cls p) <> None.

(** While no construction raises, the attribute is the area type of the
    load that built the cached England frame. *)
Definition area_type_current (p : Process) : Prop :=
  england_cases_data (cls p) <> None ->
  england_area_type (cls p) = england_loaded_with p.

(** The days of the span [lo]..[hi] that label no column of [df]. *)
Definition missing_days (df : DataFrame) (lo hi : Timestamp) : list Timestamp :=
  filter (fun x => negb (mem x (labels df))) (date_range lo hi).

(* ------------------------------------------------------------------ *)
(** ** Further vocabulary *)

(** No cell of the frame is NaN. *)
Definition no_nan (df : DataFrame) : Prop :=
  Forall (fun c : Column => Forall (fun x => is_nan x = false) (snd c)) (columns df).

(** Every column has one cell per row. *)
Definition well_shaped (df : DataFrame) : Prop :=
  Forall (fun c : Column => length (snd c) = length (index df)) (columns df).

(** A frame with a repeated label, a NaN and a gap. *)
Definition repeated_frame : DataFrame :=
  mkDataFrame [("England", "Area A")]%string
              [(18630, [nan]); (18628, [5%float]); (18630, [7%float])].

(** The feed row [r] belongs to [country]: its area code starts with the
    first letter of the country's name (line 39). *)
Definition matches (country : string) (r : CasesRow) : bool :=
  match first_letter country with
  | Some c => String.prefix c (areaCode r)
  | None => false
  end.

(** Strict order of the row keys. *)
Definition key_lt (a b : RowKey) : Prop := key_compare a b = Lt.


(** What every frame built by [_load_cases_dataset] for [country]
    satisfies. *)
Definition backfilled_frame_of (country : string) (df : DataFrame) : Prop :=
  StronglySorted Z.lt (labels df) /\
  date_complete df /\
  no_nan df /\
  well_shaped df /\
  NoDup (index df) /\
  (forall k, In k (index df) -> fst k = country).

(** A network that never answers. *)
Definition dead_net : Net := fun _ _ => None.

(** The cached England and Wales frames satisfy [Q] for their country. *)
Definition frames_satisfy (Q : string -> DataFrame -> Prop) (p : Process) : Prop :=
  (forall df, england_cases_data (cls p) = Some df -> Q "England"%string df) /\
  (forall df, wales_cases_data (cls p) = Some df -> Q "Wales"%string df).

(* ------------------------------------------------------------------ *)
(** ** Proof automation for the constructor *)

Arguments reshape_cases : simpl never.
Arguments reshape_scotland : simpl never.
Arguments cases_url : simpl never.
Arguments SCOTLAND_PATH : simpl never.

(** Expose the body of [__init__] as nested matches. *)
Ltac unfold_init :=
  unfold construct, returns, UKCovid19Data.__init__,
    _load_cases_dataset, _load_scotland_cases_dataset, read_csv,
    bind, ret, raise, lift, getattrs, getattr_england_area_type,
    setattr_england_area_type, setattr_england_cases_data,
    setattr_wales_cases_data, setattr_scotland_cases_data, is_none.

(** Split on every download and every reshaping outcome met on the way. *)
Ltac case_split :=
  repeat match goal with
         | |- context [match ?x with _ => _ end] =>
             lazymatch x with
             | context [match _ with _ => _ end] => fail
             | _ => destruct x eqn:?; simpl in *
             end
         end.


(* ================================================================== *)
(** * Properties *)

(* ------------------------------------------------------------------ *)
(** ** Sorting, ranges, extrema *)

Section Sorting.

Lemma insert_sorted_perm x l : Permutation (x :: l) (insert_sorted x l).
Proof.
  induction l as [|y r IH]; simpl; [reflexivity|].
  destruct (x <=? y); [reflexivity|].
  rewrite perm_swap. now constructor.
Qed.

Lemma np_sort_perm l : Permutation l (np_sort l).
Proof.
  induction l as [|x l IH]; simpl; [constructor|].
  rewrite <- insert_sorted_perm. now constructor.
Qed.

Lemma np_sort_In l x : In x (np_sort l) <-> In x l.
Proof.
  split; apply Permutation_in; [symmetry|]; apply np_sort_perm.
Qed.

Lemma insert_sorted_In x y l : In y (insert_sorted x l) <-> y = x \/ In y l.
Proof.
  split; intro H.
  - apply (Permutation_in _ (Permutation_sym (insert_sorted_perm x l))) in H.
    destruct H; auto.
  - apply (Permutation_in _ (insert_sorted_perm x l)).
    destruct H; [left; congruence | now right].
Qed.

Lemma insert_sorted_sorted x l :
  StronglySorted Z.le l -> StronglySorted Z.le (insert_sorted x l).
Proof.
  induction 1 as [|y r Hr IH Hy]; simpl.
  - repeat constructor.
  - destruct (Z.leb_spec x y).
    + constructor; [now constructor|].
      constructor; [assumption|].
      eapply Forall_impl; [|exact Hy]. intros; lia.
    + constructor; [assumption|].
      apply Forall_forall. intros z Hz.
      apply insert_sorted_In in Hz. destruct Hz as [->|Hz]; [lia|].
      rewrite Forall_forall in Hy. now apply Hy.
Qed.

Lemma np_sort_sorted l : StronglySorted Z.le (np_sort l).
Proof.
  induction l; simpl; [constructor | now apply insert_sorted_sorted].
Qed.

(** A sorted list without repetition is strictly increasing. *)
Lemma sorted_nodup_strict l :
  StronglySorted Z.le l -> NoDup l -> StronglySorted Z.lt l.
Proof.
  induction 1 as [|x r Hr IH Hx]; intros Hnd; [constructor|].
  inversion Hnd as [|? ? Hnotin Hnd']; subst.
  constructor; [auto|].
  rewrite Forall_forall in *. intros y Hy.
  specialize (Hx y Hy).
  assert (x <> y) by (intros ->; contradiction).
  lia.
Qed.

Lemma strict_nodup l : StronglySorted Z.lt l -> NoDup l.
Proof.
  induction 1 as [|x r Hr IH Hx]; constructor; auto.
  intro Hin. rewrite Forall_forall in Hx. specialize (Hx x Hin). lia.
Qed.

(** Two strictly increasing lists with the same members are equal. *)
Lemma strict_ext l1 :
  forall l2,
    StronglySorted Z.lt l1 -> StronglySorted Z.lt l2 ->
    (forall x, In x l1 <-> In x l2) -> l1 = l2.
Proof.
  induction l1 as [|a r1 IH]; intros [|b r2] H1 H2 Hmem.
  - reflexivity.
  - exfalso. apply (proj2 (Hmem b)). now left.
  - exfalso. apply (proj1 (Hmem a)). now left.
  - inversion H1 as [|? ? Hr1 Ha]; inversion H2 as [|? ? Hr2 Hb]; subst.
    rewrite Forall_forall in Ha, Hb.
    assert (a = b) as ->.
    { destruct (proj1 (Hmem a) (or_introl eq_refl)) as [E|Hin]; [auto|].
      destruct (proj2 (Hmem b) (or_introl eq_refl)) as [E|Hin']; [auto|].
      specialize (Ha _ Hin'). specialize (Hb _ Hin). lia. }
    f_equal. apply IH; auto.
    intro x. split; intro Hx.
    + destruct (proj1 (Hmem x) (or_intror Hx)) as [E|Hin]; [|exact Hin].
      subst x. specialize (Ha _ Hx). lia.
    + destruct (proj2 (Hmem x) (or_intror Hx)) as [E|Hin]; [|exact Hin].
      subst x. specialize (Hb _ Hx). lia.
Qed.

Lemma np_sort_strict l : NoDup l -> StronglySorted Z.lt (np_sort l).
Proof.
  intro Hnd. apply sorted_nodup_strict; [apply np_sort_sorted|].
  eapply Permutation_NoDup; [apply np_sort_perm | exact Hnd].
Qed.

(** Sorting leaves a strictly increasing list as it is. *)
Lemma np_sort_fixed l : StronglySorted Z.lt l -> np_sort l = l.
Proof.
  intro Hs. apply strict_ext; [|exact Hs|apply np_sort_In].
  apply np_sort_strict, strict_nodup, Hs.
Qed.

Lemma drop_repeats_fixed l : StronglySorted Z.lt l -> drop_repeats l = l.
Proof.
  induction 1 as [|x r Hr IH Hx]; [reflexivity|].
  simpl. destruct r as [|y r']; [reflexivity|].
  inversion Hx; subst.
  destruct (Z.eqb_spec x y); [lia|].
  f_equal. exact IH.
Qed.

Lemma np_unique_fixed l : StronglySorted Z.lt l -> np_unique l = l.
Proof.
  intro Hs. unfold np_unique. rewrite (np_sort_fixed l Hs).
  now apply drop_repeats_fixed.
Qed.

Lemma mem_In x l : mem x l = true <-> In x l.
Proof.
  unfold mem. rewrite existsb_exists. split.
  - intros (y & Hy & E). apply Z.eqb_eq in E. now subst.
  - intro H. exists x. split; [assumption | apply Z.eqb_refl].
Qed.

Lemma mem_false x l : mem x l = false <-> ~ In x l.
Proof.
  rewrite <- mem_In. destruct (mem x l); split; congruence.
Qed.

Lemma date_range_In lo hi x : In x (date_range lo hi) <-> lo <= x <= hi.
Proof.
  unfold date_range. rewrite in_map_iff. split.
  - intros (k & <- & Hk). apply in_seq in Hk. lia.
  - intros H. exists (Z.to_nat (x - lo)). split; [lia|].
    apply in_seq. lia.
Qed.

Lemma shifted_seq_strict lo n s :
  StronglySorted Z.lt (map (fun k => lo + Z.of_nat k) (seq s n)).
Proof.
  revert s. induction n as [|n IH]; intro s; simpl; constructor.
  - apply IH.
  - apply Forall_forall. intros y Hy.
    apply in_map_iff in Hy. destruct Hy as (k & <- & Hk).
    apply in_seq in Hk. lia.
Qed.

Lemma date_range_strict lo hi : StronglySorted Z.lt (date_range lo hi).
Proof. apply shifted_seq_strict. Qed.

Lemma fold_min_spec l : forall x,
  In (fold_left Z.min l x) (x :: l) /\
  forall y, In y (x :: l) -> fold_left Z.min l x <= y.
Proof.
  induction l as [|a l IH]; intro x; simpl.
  - split; [now left|]. intros y [->|[]]. lia.
  - destruct (IH (Z.min x a)) as [Hin Hle]. split.
    + destruct Hin as [E|Hin]; [|now right; right].
      rewrite <- E. destruct (Z.min_spec x a) as [[_ ->]|[_ ->]]; auto.
    + intros y Hy.
      assert (fold_left Z.min l (Z.min x a) <= Z.min x a) by (apply Hle; now left).
      destruct Hy as [->|[->|Hy]]; [lia|lia|].
      apply Hle. now right.
Qed.

Lemma fold_max_spec l : forall x,
  In (fold_left Z.max l x) (x :: l) /\
  forall y, In y (x :: l) -> y <= fold_left Z.max l x.
Proof.
  induction l as [|a l IH]; intro x; simpl.
  - split; [now left|]. intros y [->|[]]. lia.
  - destruct (IH (Z.max x a)) as [Hin Hle]. split.
    + destruct Hin as [E|Hin]; [|now right; right].
      rewrite <- E. destruct (Z.max_spec x a) as [[_ ->]|[_ ->]]; auto.
    + intros y Hy.
      assert (Z.max x a <= fold_left Z.max l (Z.max x a)) by (apply Hle; now left).
      destruct Hy as [->|[->|Hy]]; [lia|lia|].
      apply Hle. now right.
Qed.

Lemma index_min_spec l lo :
  index_min l = Some lo -> In lo l /\ forall y, In y l -> lo <= y.
Proof.
  destruct l as [|x r]; simpl; [discriminate|].
  intros [= <-]. apply fold_min_spec.
Qed.

Lemma index_max_spec l hi :
  index_max l = Some hi -> In hi l /\ forall y, In y l -> y <= hi.
Proof.
  destruct l as [|x r]; simpl; [discriminate|].
  intros [= <-]. apply fold_max_spec.
Qed.

(** The extrema of a full range are its two ends. *)
Lemma index_min_date_range lo hi :
  lo <= hi -> index_min (date_range lo hi) = Some lo.
Proof.
  intro Hle.
  destruct (index_min (date_range lo hi)) as [m|] eqn:E.
  - apply index_min_spec in E. destruct E as [Hin Hmin].
    apply date_range_In in Hin.
    specialize (Hmin lo (proj2 (date_range_In lo hi lo) ltac:(lia))).
    f_equal. lia.
  - assert (Hin : In lo (date_range lo hi)) by (apply date_range_In; lia).
    destruct (date_range lo hi); [destruct Hin | discriminate].
Qed.

Lemma index_max_date_range lo hi :
  lo <= hi -> index_max (date_range lo hi) = Some hi.
Proof.
  intro Hle.
  destruct (index_max (date_range lo hi)) as [m|] eqn:E.
  - apply index_max_spec in E. destruct E as [Hin Hmax].
    apply date_range_In in Hin.
    specialize (Hmax hi (proj2 (date_range_In lo hi hi) ltac:(lia))).
    f_equal. lia.
  - assert (Hin : In hi (date_range lo hi)) by (apply date_range_In; lia).
    destruct (date_range lo hi); [destruct Hin | discriminate].
Qed.

End Sorting.

(* ------------------------------------------------------------------ *)
(** ** Frames: columns by label *)

Section Frames.

Lemma column_of_app d a b :
  column_of d (a ++ b) =
  match column_of d a with
  | Some vs => Some vs
  | None => column_of d b
  end.
Proof.
  induction a as [|c a IH]; simpl; [reflexivity|].
  destruct (fst c =? d); [reflexivity | exact IH].
Qed.

Lemma column_of_None d cs : column_of d cs = None <-> ~ In d (map fst cs).
Proof.
  induction cs as [|c cs IH]; simpl.
  - tauto.
  - destruct (Z.eqb_spec (fst c) d) as [E|E].
    + split; [discriminate|]. intros H. exfalso. apply H. now left.
    + rewrite IH. tauto.
Qed.

Lemma column_of_tabulate {f : Timestamp -> list float} d ls :
  In d ls -> column_of d (map (fun l => (l, f l)) ls) = Some (f d).
Proof.
  induction ls as [|l ls IH]; simpl; [tauto|].
  destruct (Z.eqb_spec l d) as [->|E]; [reflexivity|].
  intros [H|H]; [contradiction | now apply IH].
Qed.

Lemma labels_tabulate (f : Timestamp -> list float) ls :
  map fst (map (fun l => (l, f l)) ls) = ls.
Proof.
  rewrite map_map. simpl. apply map_id.
Qed.

Lemma column_of_fillna v d cs :
  column_of d (map (fun c : Column => (fst c, map (fillna_cell v) (snd c))) cs) =
  option_map (map (fillna_cell v)) (column_of d cs).
Proof.
  induction cs as [|c cs IH]; simpl; [reflexivity|].
  destruct (fst c =? d); [reflexivity | exact IH].
Qed.

Lemma labels_fillna v df : labels (fillna v df) = labels df.
Proof.
  unfold labels, fillna. simpl. rewrite map_map. reflexivity.
Qed.

(** In a frame with unique labels, selecting one label yields the one
    column that carries it. *)
Lemma filter_label l cs :
  NoDup (map fst cs) ->
  filter (fun c : Column => fst c =? l) cs =
  match column_of l cs with
  | Some vs => [(l, vs)]
  | None => []
  end.
Proof.
  induction cs as [|c cs IH]; simpl; [reflexivity|].
  intro Hnd. inversion Hnd as [|? ? Hnotin Hnd']; subst.
  destruct (Z.eqb_spec (fst c) l) as [E|E].
  - subst l. rewrite (IH Hnd').
    destruct (column_of (fst c) cs) eqn:Ec.
    + exfalso. assert (column_of (fst c) cs <> None) by congruence.
      rewrite column_of_None in H. tauto.
    + destruct c; reflexivity.
  - apply IH, Hnd'.
Qed.

Lemma getitem_unique df ls :
  NoDup (labels df) ->
  (forall l, In l ls -> In l (labels df)) ->
  columns (getitem df ls) =
  map (fun l => (l, match column_of l (columns df) with
                    | Some vs => vs
                    | None => []
                    end)) ls.
Proof.
  intros Hnd. unfold getitem. simpl.
  induction ls as [|l ls IH]; intro Hin; simpl; [reflexivity|].
  rewrite IH by (intros; apply Hin; now right).
  rewrite (filter_label l _ Hnd).
  destruct (column_of l (columns df)) eqn:E; [reflexivity|].
  exfalso. apply column_of_None in E. apply E, Hin. now left.
Qed.

(** Adding columns for labels the frame lacks appends them, all zero. *)
Lemma setitem_fresh ms : forall df,
  NoDup ms ->
  (forall m, In m ms -> ~ In m (labels df)) ->
  fold_left (fun df m => setitem df m 0%float) ms df =
  mkDataFrame (index df)
    (columns df ++ map (fun m => (m, repeat 0%float (length (index df)))) ms).
Proof.
  induction ms as [|m ms IH]; intros df Hnd Hfresh; simpl.
  - rewrite app_nil_r. destruct df; reflexivity.
  - inversion Hnd as [|? ? Hm Hnd']; subst.
    unfold setitem at 2.
    assert (E : mem m (labels df) = false)
      by (apply mem_false, Hfresh; now left).
    rewrite E. rewrite IH; simpl.
    + rewrite <- app_assoc. reflexivity.
    + exact Hnd'.
    + intros x Hx. unfold labels. simpl. rewrite map_app. simpl.
      rewrite in_app_iff. intros [H|[H|[]]].
      * apply (Hfresh x); [now right | exact H].
      * subst. contradiction.
Qed.

Lemma fillna_cell_idem v x :
  is_nan v = false -> fillna_cell v (fillna_cell v x) = fillna_cell v x.
Proof.
  intro Hv. unfold fillna_cell.
  destruct (is_nan x) eqn:E; [now rewrite Hv | now rewrite E].
Qed.

Lemma fillna_zeros n :
  map (fillna_cell 0%float) (repeat 0%float n) = repeat 0%float n.
Proof.
  induction n; simpl; [reflexivity | now f_equal].
Qed.

Lemma filled_column_clean df d :
  map (fillna_cell 0%float) (filled_column df d) = filled_column df d.
Proof.
  unfold filled_column. destruct (column_of d (columns df)).
  - rewrite map_map. apply map_ext. intro x. now apply fillna_cell_idem.
  - apply fillna_zeros.
Qed.

End Frames.

(* ------------------------------------------------------------------ *)
(** ** The backfill, in closed form *)

Section Backfill.

Variable df : DataFrame.
Variables lo hi : Timestamp.
Hypothesis unique_labels : NoDup (labels df).
Hypothesis first_day : index_min (labels df) = Some lo.
Hypothesis last_day : index_max (labels df) = Some hi.

Lemma first_le_last : lo <= hi.
Proof.
  destruct (index_min_spec _ _ first_day) as [Hin _].
  destruct (index_max_spec _ _ last_day) as [_ Hmax]. auto.
Qed.

Lemma labels_in_range d : In d (labels df) -> lo <= d <= hi.
Proof.
  intro H.
  destruct (index_min_spec _ _ first_day) as [_ Hmin].
  destruct (index_max_spec _ _ last_day) as [_ Hmax].
  split; auto.
Qed.

Lemma missing_spec d :
  In d (missing_days df lo hi) <-> lo <= d <= hi /\ ~ In d (labels df).
Proof.
  unfold missing_days. rewrite filter_In, date_range_In, negb_true_iff, mem_false.
  tauto.
Qed.

Lemma missing_nodup : NoDup (missing_days df lo hi).
Proof.
  apply NoDup_filter, strict_nodup, date_range_strict.
Qed.

Lemma sorted_labels_are_range : np_sort (labels df ++ (missing_days df lo hi)) = date_range lo hi.
Proof.
  apply strict_ext.
  - apply np_sort_strict. apply NoDup_app; [exact unique_labels | exact missing_nodup |].
    intros x Hx Hm. apply missing_spec in Hm. tauto.
  - apply date_range_strict.
  - intro x. rewrite np_sort_In, in_app_iff, missing_spec, date_range_In.
    split.
    + intros [H|[H _]]; [now apply labels_in_range | exact H].
    + intro H. destruct (in_dec Z.eq_dec x (labels df)); tauto.
Qed.

(** The result of [_backfill_missing_data], column by column. *)
Lemma backfill_closed_form :
  _backfill_missing_data df =
  Some (mkDataFrame (index df)
          (map (fun d => (d, filled_column df d)) (date_range lo hi))).
Proof.
  unfold _backfill_missing_data.
  rewrite labels_fillna, first_day, last_day.
  unfold setdiff1d. rewrite (np_unique_fixed _ (date_range_strict lo hi)).
  fold (missing_days df lo hi).
  rewrite setitem_fresh.
  - set (df2 := mkDataFrame _ _).
    assert (Hl2 : labels df2 = labels df ++ (missing_days df lo hi)).
    { unfold labels, df2. simpl. rewrite map_app, !map_map. simpl.
      now rewrite map_id. }
    rewrite Hl2, sorted_labels_are_range.
    f_equal. unfold getitem at 1.
    assert (Hcols := getitem_unique df2 (date_range lo hi)).
    unfold getitem in Hcols. simpl in Hcols. simpl.
    rewrite Hcols.
    + f_equal. apply map_ext_in. intros d Hd. f_equal.
      unfold df2. simpl. rewrite column_of_app, column_of_fillna.
      unfold filled_column.
      destruct (column_of d (columns df)) eqn:E; simpl; [reflexivity|].
      assert (Hm : In d (missing_days df lo hi)).
      { apply missing_spec. split; [now apply date_range_In|].
        now apply column_of_None. }
      rewrite (column_of_tabulate (f := fun _ => repeat 0%float (length (index df))) d (missing_days df lo hi) Hm).
      reflexivity.
    + rewrite Hl2. apply NoDup_app; [exact unique_labels | exact missing_nodup |].
      intros x Hx Hm. apply missing_spec in Hm. tauto.
    + intros l Hl. rewrite Hl2, in_app_iff.
      apply date_range_In in Hl.
      destruct (in_dec Z.eq_dec l (labels df)); [now left|].
      right. now apply missing_spec.
  - exact missing_nodup.
  - intros m Hm. rewrite labels_fillna. apply missing_spec in Hm. tauto.
Qed.

End Backfill.

(* ------------------------------------------------------------------ *)
(** ** [_backfill_missing_data]: what it keeps, what it adds *)

Section BackfillProperties.

Lemma extrema_exist (df : DataFrame) :
  columns df <> [] ->
  exists lo hi,
    index_min (labels df) = Some lo /\ index_max (labels df) = Some hi.
Proof.
  unfold labels. destruct (columns df) as [|c cs]; [congruence|].
  intros _. simpl. eauto.
Qed.

Lemma nth_error_fillna v vs i :
  nth_error (map (fillna_cell v) vs) i = option_map (fillna_cell v) (nth_error vs i).
Proof.
  revert i. induction vs as [|a vs IH]; intros [|i]; simpl; auto.
Qed.

(** The frame that the backfill returns has a column for every day of its
    date span. *)
Lemma backfill_date_complete (df out : DataFrame) :
  NoDup (labels df) ->
  _backfill_missing_data df = Some out ->
  date_complete out.
Proof.
  intros Hnd Hout.
  assert (Hne : columns df <> []).
  { intro E. unfold _backfill_missing_data, labels, fillna in Hout.
    rewrite E in Hout. discriminate. }
  destruct (extrema_exist df Hne) as (lo & hi & Hlo & Hhi).
  rewrite (backfill_closed_form df lo hi Hnd Hlo Hhi) in Hout.
  injection Hout as <-.
  assert (Hle := first_le_last df lo hi Hlo Hhi).
  unfold date_complete, labels. simpl. rewrite labels_tabulate.
  intros lo' hi' d. rewrite (index_min_date_range lo hi Hle).
  rewrite (index_max_date_range lo hi Hle).
  intros [= <-] [= <-] Hd. now apply date_range_In.
Qed.

End BackfillProperties.

Lemma gappy_frame_unique : NoDup (labels gappy_frame).
Proof.
  unfold labels; simpl. repeat constructor; simpl; intuition discriminate.
Defined.

Lemma gappy_frame_columns : columns gappy_frame <> [].
Proof. discriminate. Defined.

(** C9. The backfill never alters reported data.  On a frame with unique
    date labels and at least one column it returns a frame [out] such that:
    the row keys are those of the input; the labels of [out] are exactly the
    days from the first to the last input label, in ascending order, so
    every input label is still there; the column of an input label holds the
    input cells with NaN replaced by 0.0 and every other cell untouched; a
    column whose label the input lacks is zero on every row. *)
Theorem backfill_keeps_reported_data (df : DataFrame) :
  NoDup (labels df) ->
  columns df <> [] ->
  exists out lo hi,
    _backfill_missing_data df = Some out /\
    index_min (labels df) = Some lo /\
    index_max (labels df) = Some hi /\
    index out = index df /\
    labels out = date_range lo hi /\
    StronglySorted Z.lt (labels out) /\
    (forall d, In d (labels df) -> In d (labels out)) /\
    (forall d vs,
        column_of d (columns df) = Some vs ->
        column_of d (columns out) = Some (map (fillna_cell 0%float) vs)) /\
    (forall d,
        In d (labels out) -> ~ In d (labels df) ->
        column_of d (columns out) = Some (repeat 0%float (length (index df)))) /\
    (forall k d x,
        cell df k d = Some x -> is_nan x = false -> cell out k d = Some x) /\
    (forall k d x,
        cell df k d = Some x -> is_nan x = true -> cell out k d = Some 0%float).
Proof.
  intros Hnd Hne.
  destruct (extrema_exist df Hne) as (lo & hi & Hlo & Hhi).
  exists (mkDataFrame (index df)
            (map (fun d => (d, filled_column df d)) (date_range lo hi))), lo, hi.
  assert (Hlab : forall d, In d (labels df) -> In d (date_range lo hi)).
  { intros d Hd. apply date_range_In. now apply (labels_in_range df lo hi). }
  assert (Hcol : forall d vs,
             column_of d (columns df) = Some vs ->
             column_of d (map (fun d => (d, filled_column df d)) (date_range lo hi))
             = Some (map (fillna_cell 0%float) vs)).
  { intros d vs E.
    rewrite (column_of_tabulate (f := filled_column df)).
    - unfold filled_column. now rewrite E.
    - apply Hlab. unfold labels.
      destruct (in_dec Z.eq_dec d (map fst (columns df))) as [|n]; [assumption|].
      apply column_of_None in n. congruence. }
  assert (Hcell : forall k d x,
             cell df k d = Some x ->
             cell (mkDataFrame (index df)
                     (map (fun d => (d, filled_column df d)) (date_range lo hi))) k d
             = Some (fillna_cell 0%float x)).
  { intros k d x. unfold cell. simpl.
    destruct (position k (index df)) as [i|]; [|discriminate].
    destruct (column_of d (columns df)) as [vs|] eqn:E; [|discriminate].
    rewrite (Hcol d vs E), nth_error_fillna. now intros ->. }
  assert (Hout : labels (mkDataFrame (index df)
                    (map (fun d => (d, filled_column df d)) (date_range lo hi)))
                 = date_range lo hi)
    by (unfold labels; simpl; apply labels_tabulate).
  rewrite Hout. simpl.
  repeat split.
  - now apply backfill_closed_form.
  - exact Hlo.
  - exact Hhi.
  - apply date_range_strict.
  - exact Hlab.
  - exact Hcol.
  - intros d Hd Hnot.
    rewrite (column_of_tabulate (f := filled_column df) d _ Hd).
    unfold filled_column. apply column_of_None in Hnot. now rewrite Hnot.
  - intros k d x Hx Hnan. rewrite (Hcell k d x Hx).
    unfold fillna_cell. now rewrite Hnan.
  - intros k d x Hx Hnan. rewrite (Hcell k d x Hx).
    unfold fillna_cell. now rewrite Hnan.
Qed.

Lemma backfill_keeps_reported_data_witness :
  exists out lo hi,
    _backfill_missing_data gappy_frame = Some out /\
    index_min (labels gappy_frame) = Some lo /\
    index_max (labels gappy_frame) = Some hi /\
    index out = index gappy_frame /\
    labels out = date_range lo hi /\
    StronglySorted Z.lt (labels out) /\
    (forall d, In d (labels gappy_frame) -> In d (labels out)) /\
    (forall d vs,
        column_of d (columns gappy_frame) = Some vs ->
        column_of d (columns out) = Some (map (fillna_cell 0%float) vs)) /\
    (forall d,
        In d (labels out) -> ~ In d (labels gappy_frame) ->
        column_of d (columns out) = Some (repeat 0%float (length (index gappy_frame)))) /\
    (forall k d x,
        cell gappy_frame k d = Some x -> is_nan x = false -> cell out k d = Some x) /\
    (forall k d x,
        cell gappy_frame k d = Some x -> is_nan x = true -> cell out k d = Some 0%float).
Proof.
  exact (backfill_keeps_reported_data gappy_frame gappy_frame_unique gappy_frame_columns).
Defined.

(** C4. The backfill is idempotent.  On a frame with unique date labels and
    at least one column it returns a frame, and run on that frame it returns
    the very same frame. *)
Theorem backfill_idempotent (df : DataFrame) :
  NoDup (labels df) ->
  columns df <> [] ->
  exists out,
    _backfill_missing_data df = Some out /\
    _backfill_missing_data out = Some out.
Proof.
  intros Hnd Hne.
  destruct (extrema_exist df Hne) as (lo & hi & Hlo & Hhi).
  assert (Hle := first_le_last df lo hi Hlo Hhi).
  set (out := mkDataFrame (index df)
                (map (fun d => (d, filled_column df d)) (date_range lo hi))).
  exists out. split; [now apply backfill_closed_form|].
  assert (Hlab : labels out = date_range lo hi)
    by (unfold labels, out; simpl; apply labels_tabulate).
  rewrite (backfill_closed_form out lo hi).
  - unfold out at 3. simpl. do 2 f_equal.
    apply map_ext_in. intros d Hd. f_equal.
    unfold filled_column at 1. unfold out at 1. simpl.
    rewrite (column_of_tabulate (f := filled_column df) d _ Hd).
    apply filled_column_clean.
  - rewrite Hlab. apply strict_nodup, date_range_strict.
  - rewrite Hlab. now apply index_min_date_range.
  - rewrite Hlab. now apply index_max_date_range.
Qed.

Lemma backfill_idempotent_witness :
  exists out,
    _backfill_missing_data gappy_frame = Some out /\
    _backfill_missing_data out = Some out.
Proof.
  exact (backfill_idempotent gappy_frame gappy_frame_unique gappy_frame_columns).
Defined.

(** The gap and the NaN of [gappy_frame] are filled, the columns sorted. *)
Example backfill_gappy_frame :
  _backfill_missing_data gappy_frame =
  Some (mkDataFrame [("England", "Area A"); ("England", "Area B")]%string
          [(18628, [5; 2]%float); (18629, [0; 0]%float); (18630, [7; 0]%float)]).
Proof. reflexivity. Qed.

(* ------------------------------------------------------------------ *)
(** ** The Scotland loop *)

Section ScotlandLoop.

Lemma iloc_set_col_length cs : forall i vs,
  length (iloc_set_col cs i vs) = length cs.
Proof.
  induction cs as [|c cs IH]; intros [|i] vs; simpl; auto.
Qed.

Lemma iloc_set_col_labels cs : forall i vs,
  map fst (iloc_set_col cs i vs) = map fst cs.
Proof.
  induction cs as [|c cs IH]; intros [|i] vs; simpl; auto.
  now rewrite IH.
Qed.

Lemma iloc_set_col_other cs : forall i j vs,
  i <> j -> nth_error (iloc_set_col cs j vs) i = nth_error cs i.
Proof.
  induction cs as [|c cs IH]; intros [|i] [|j] vs Hij; simpl;
    first [reflexivity | congruence | apply IH; congruence].
Qed.

Lemma iloc_set_col_same cs : forall i vs,
  (i < length cs)%nat -> iloc_col (iloc_set_col cs i vs) i = vs.
Proof.
  unfold iloc_col.
  induction cs as [|c cs IH]; intros [|i] vs Hi; simpl in *; try lia; auto.
  apply IH. lia.
Qed.

Lemma nth_of_nth_error {A} (l l' : list A) i d :
  nth_error l' i = nth_error l i -> nth i l' d = nth i l d.
Proof.
  intro E.
  destruct (nth_error l i) as [a|] eqn:El.
  - rewrite (nth_error_nth _ _ d E). now rewrite (nth_error_nth _ _ d El).
  - apply nth_error_None in E, El. now rewrite !nth_overflow.
Qed.

Lemma iloc_col_ext cs cs' i :
  nth_error cs' i = nth_error cs i -> iloc_col cs' i = iloc_col cs i.
Proof.
  unfold iloc_col. intro E. f_equal. now apply nth_of_nth_error.
Qed.

(** The loop visits the indices from the last one down; seen from the
    first index [s] it visits, everything below [s] is still the input,
    and everything from [s] on is a difference of two input columns. *)
Lemma descending_pass cs m : forall s,
  (1 <= s)%nat -> (s + m <= length cs)%nat ->
  let out := fold_right (fun i acc => difference_at acc i) cs (seq s m) in
  length out = length cs /\
  map fst out = map fst cs /\
  (forall i, (i < s)%nat -> nth_error out i = nth_error cs i) /\
  (forall i, (s <= i < s + m)%nat ->
             iloc_col out i = series_sub (iloc_col cs i) (iloc_col cs (i - 1))).
Proof.
  induction m as [|m IH]; intros s Hs Hlen; simpl.
  - repeat split; auto. intros; lia.
  - destruct (IH (S s) ltac:(lia) ltac:(lia)) as (Hl & Hf & Hlow & Hhigh).
    set (inner := fold_right (fun i acc => difference_at acc i) cs (seq (S s) m)) in *.
    unfold difference_at at 1 2 3 4.
    repeat split.
    + now rewrite iloc_set_col_length.
    + now rewrite iloc_set_col_labels.
    + intros i Hi. rewrite iloc_set_col_other by lia. apply Hlow. lia.
    + intros i Hi. destruct (Nat.eq_dec i s) as [->|Hne].
      * rewrite iloc_set_col_same by lia.
        rewrite (iloc_col_ext cs inner s) by (apply Hlow; lia).
        rewrite (iloc_col_ext cs inner (s - 1)) by (apply Hlow; lia).
        reflexivity.
      * rewrite (iloc_col_ext inner (iloc_set_col inner s _) i)
          by (apply iloc_set_col_other; lia).
        apply Hhigh. lia.
Qed.

Lemma cumulative_to_daily_unfold cs :
  cumulative_to_daily cs =
  fold_right (fun i acc => difference_at acc i) cs (seq 2 (length cs - 1 - 1)).
Proof.
  unfold cumulative_to_daily, range_down.
  rewrite <- fold_left_rev_right, rev_involutive. reflexivity.
Qed.

End ScotlandLoop.

Lemma series_sub_cell a : forall b j x y,
  nth_error a j = Some x ->
  nth_error b j = Some y ->
  nth_error (series_sub a b) j = Some (x - y)%float.
Proof.
  unfold series_sub.
  induction a as [|a0 a IH]; intros [|b0 b] [|j] x y; simpl;
    try discriminate.
  - now intros [= ->] [= ->].
  - apply IH.
Qed.

Lemma series_sub_cells a b :
  length (series_sub a b) = Nat.min (length a) (length b).
Proof.
  unfold series_sub. now rewrite length_map, length_combine.
Qed.

(** C8. In the Scotland conversion the loop runs over the column positions
    from the last one down to 2.  Whatever the frame, the number and the
    labels of the columns are unchanged, columns 0 and 1 keep their
    cumulative values, and in every column at a position [i >= 2] each cell
    ends up as the float difference of the input cell of column [i] and the
    input cell of column [i - 1] on the same row, with one cell for every
    row that both input columns have: no column that has already been
    differenced is ever subtracted. *)
Theorem cumulative_to_daily_descending (cs : list Column) :
  length (cumulative_to_daily cs) = length cs /\
  map fst (cumulative_to_daily cs) = map fst cs /\
  (forall i, (i < 2)%nat -> nth_error (cumulative_to_daily cs) i = nth_error cs i) /\
  (forall i, (2 <= i < length cs)%nat ->
             length (iloc_col (cumulative_to_daily cs) i) =
             Nat.min (length (iloc_col cs i)) (length (iloc_col cs (i - 1)))) /\
  (forall i j x y,
      (2 <= i < length cs)%nat ->
      nth_error (iloc_col cs i) j = Some x ->
      nth_error (iloc_col cs (i - 1)) j = Some y ->
      nth_error (iloc_col (cumulative_to_daily cs) i) j = Some (x - y)%float).
Proof.
  rewrite cumulative_to_daily_unfold.
  destruct (le_lt_dec 2 (length cs)) as [Hge|Hlt].
  - destruct (descending_pass cs (length cs - 1 - 1) 2 ltac:(lia) ltac:(lia))
      as (Hl & Hf & Hlow & Hhigh).
    repeat split; auto.
    + intros i Hi. rewrite Hhigh by lia. apply series_sub_cells.
    + intros i j x y Hi Hx Hy. rewrite Hhigh by lia.
      now apply series_sub_cell.
  - replace (length cs - 1 - 1)%nat with 0%nat by lia. simpl.
    repeat split; auto; intros; lia.
Qed.

Lemma cumulative_to_daily_descending_witness :
  nth_error (cumulative_to_daily four_days) 0 = Some (18327, [10%float]) /\
  nth_error (cumulative_to_daily four_days) 1 = Some (18328, [15%float]) /\
  nth_error (iloc_col (cumulative_to_daily four_days) 2) 0 = Some 0%float /\
  nth_error (iloc_col (cumulative_to_daily four_days) 3) 0 = Some 5%float /\
  length (iloc_col (cumulative_to_daily four_days) 3) = 1%nat.
Proof.
  destruct (cumulative_to_daily_descending four_days)
    as (_ & _ & Hlow & Hlen & Hcell).
  split; [exact (Hlow 0%nat ltac:(lia))|].
  split; [exact (Hlow 1%nat ltac:(lia))|].
  split; [|split].
  - exact (Hcell 2%nat 0%nat 15%float 15%float
             (conj (le_n 2) (le_S 3 3 (le_n 3))) eq_refl eq_refl).
  - exact (Hcell 3%nat 0%nat 20%float 15%float
             (conj (le_S 2 2 (le_n 2)) (le_n 4)) eq_refl eq_refl).
  - exact (Hlen 3%nat (conj (le_S 2 2 (le_n 2)) (le_n 4))).
Defined.

(** C3. On the cumulative counts 10, 15, 15, 20 the Scotland reshaper
    returns 10, 15, 0, 5: the second day keeps its cumulative 15 where the
    delta rule gives 15 - 10 = 5, because the loop stops at position 2. *)
Theorem scotland_second_day_stays_cumulative :
  reshape_scotland fife_feed =
  Returned (mkDataFrame [("Scotland", "Fife")]%string
              [(18327, [10%float]); (18328, [15%float]);
               (18329, [0%float]); (18330, [5%float])]) /\
  (forall df, reshape_scotland fife_feed = Returned df ->
              cell df ("Scotland", "Fife")%string 18328 = Some 15%float /\
              cell df ("Scotland", "Fife")%string 18328 <> Some 5%float).
Proof.
  split; [reflexivity|].
  intros df [= <-]. split; [reflexivity|].
  discriminate.
Qed.

(** C2. The Scotland reshaper does not call the backfill: when the feed
    skips a day, so does the frame.  Here the labels run from 2020-03-06
    (day 18327) to 2020-03-08 (day 18329) without 2020-03-07. *)
Theorem scotland_frame_keeps_gap :
  exists df,
    reshape_scotland feed_with_gap = Returned df /\
    index_min (labels df) = Some 18327 /\
    index_max (labels df) = Some 18329 /\
    ~ In 18328 (labels df) /\
    ~ date_complete df.
Proof.
  eexists. split; [reflexivity|].
  split; [reflexivity|]. split; [reflexivity|].
  assert (Hnot : ~ In 18328 [18327; 18329]) by (simpl; intuition discriminate).
  split; [exact Hnot|].
  intro Hc. apply Hnot.
  apply (Hc 18327 18329 18328); [reflexivity | reflexivity | lia].
Qed.

(* ------------------------------------------------------------------ *)
(** ** The England/Wales reshaper *)

Section Pivot.

Lemma drop_repeats_In l x : In x (drop_repeats l) <-> In x l.
Proof.
  induction l as [|a r IH]; [simpl; tauto|].
  destruct r as [|b r']; [simpl; tauto|].
  change (drop_repeats (a :: b :: r'))
    with (if a =? b then drop_repeats (b :: r') else a :: drop_repeats (b :: r')).
  destruct (Z.eqb_spec a b) as [->|Hne].
  - rewrite IH. simpl. tauto.
  - change (In x (a :: drop_repeats (b :: r')))
      with (a = x \/ In x (drop_repeats (b :: r'))).
    rewrite IH. simpl. tauto.
Qed.

Lemma drop_repeats_strict l :
  StronglySorted Z.le l -> StronglySorted Z.lt (drop_repeats l).
Proof.
  induction 1 as [|a r Hr IH Ha]; [constructor|].
  destruct r as [|b r']; [repeat constructor|].
  change (drop_repeats (a :: b :: r'))
    with (if a =? b then drop_repeats (b :: r') else a :: drop_repeats (b :: r')).
  destruct (Z.eqb_spec a b) as [->|Hne]; [exact IH|].
  constructor; [exact IH|].
  apply Forall_forall. intros z Hz. apply (proj1 (drop_repeats_In _ _)) in Hz.
  inversion Hr as [|? ? _ Hb]; subst.
  rewrite Forall_forall in Ha, Hb.
  assert (a <= b) by (apply Ha; now left).
  destruct (in_inv Hz) as [<-|Hz']; [lia|].
  specialize (Hb z Hz'). lia.
Qed.

Lemma np_unique_nodup l : NoDup (np_unique l).
Proof.
  apply strict_nodup, drop_repeats_strict, np_sort_sorted.
Qed.

Lemma pivot_table_unique_labels es : NoDup (labels (pivot_table es)).
Proof.
  unfold labels, pivot_table. simpl.
  rewrite (labels_tabulate (fun d => map _ _)).
  apply np_unique_nodup.
Qed.

(** Frames built by [_load_cases_dataset] went through the backfill: they
    have no missing day. *)
Lemma reshape_cases_date_complete country rows df :
  reshape_cases country rows = Returned df -> date_complete df.
Proof.
  unfold reshape_cases.
  destruct (first_letter country); [|discriminate].
  destruct (traverse _ _) as [long|]; [|discriminate].
  destruct (_backfill_missing_data (pivot_table long)) as [out|] eqn:E;
    [|discriminate].
  intros [= <-].
  eapply backfill_date_complete; [apply pivot_table_unique_labels | exact E].
Qed.

End Pivot.

(** C7, as it stands, fails: the row ("England", "Area A") of the reshaped
    scenario does not hold 5 on 2021-01-01. *)
Lemma scenario_area_a_has_no_first_day_count :
  ~ exists df,
      reshape_cases "England" scenario_rows = Returned df /\
      cell df ("England", "Area A")%string 18628 = Some 5%float /\
      cell df ("England", "Area A")%string 18629 = Some 0%float /\
      cell df ("England", "Area A")%string 18630 = Some 7%float.
Proof.
  intros (df & Hdf & H1 & _).
  vm_compute in Hdf. injection Hdf as <-.
  vm_compute in H1. discriminate.
Qed.

(** C7, amended.  The two rows of the scenario name two areas, "Areas A" and
    "Area A", so the pivot makes two rows.  Over the three days 2021-01-01,
    2021-01-02 and 2021-01-03 the row ("England", "Area A") holds 0, 0, 7
    and the row ("England", "Areas A") holds 5, 0, 0. *)
Theorem scenario_reshaped :
  to_datetime "2021-01-01" = Some 18628 /\
  to_datetime "2021-01-02" = Some 18629 /\
  to_datetime "2021-01-03" = Some 18630 /\
  exists df,
    reshape_cases "England" scenario_rows = Returned df /\
    index df = [("England", "Area A"); ("England", "Areas A")]%string /\
    labels df = [18628; 18629; 18630] /\
    cell df ("England", "Area A")%string 18628 = Some 0%float /\
    cell df ("England", "Area A")%string 18629 = Some 0%float /\
    cell df ("England", "Area A")%string 18630 = Some 7%float /\
    cell df ("England", "Areas A")%string 18628 = Some 5%float /\
    cell df ("England", "Areas A")%string 18629 = Some 0%float /\
    cell df ("England", "Areas A")%string 18630 = Some 0%float.
Proof.
  repeat (split; [reflexivity|]).
  eexists. split; [vm_compute; reflexivity|].
  repeat split.
Qed.

(* ------------------------------------------------------------------ *)
(** ** The constructor of [UKCovid19Data] *)

Lemma reshape_cases_exn country rows e :
  reshape_cases country rows = Raised e -> e = IndexError \/ e = ValueError.
Proof.
  unfold reshape_cases.
  destruct (first_letter country); [|intros [= <-]; now left].
  destruct (traverse _ _); [|intros [= <-]; now right].
  destruct (_backfill_missing_data _); [discriminate | intros [= <-]; now right].
Qed.

Lemma reshape_scotland_exn t e :
  reshape_scotland t = Raised e -> e = ValueError.
Proof.
  unfold reshape_scotland.
  destruct (traverse _ _); [discriminate | now intros [= <-]].
Qed.

(** Name the exception that a failed reshaping raised. *)
Ltac exn_origin :=
  repeat match goal with
         | H : reshape_cases _ _ = Raised _ |- _ =>
             apply reshape_cases_exn in H; destruct H; subst
         | H : reshape_scotland _ = Raised _ |- _ =>
             apply reshape_scotland_exn in H; subst
         end.

Section Constructor.

Variable net : Net.

(** No construction assigns [wales_tests_data]. *)
Lemma construct_wales_tests force_load a p :
  wales_tests_data (cls (construct net force_load a p)) = wales_tests_data (cls p).
Proof.
  destruct p as [[e w t s ty] rq lw]. unfold_init. simpl.
  case_split; reflexivity.
Qed.

Lemma reachable_wales_tests p :
  reachable net p -> wales_tests_data (cls p) = None.
Proof.
  induction 1 as [|p f a Hp IH]; [reflexivity|].
  now rewrite construct_wales_tests.
Qed.

Lemma construct_area_type_assigned force_load a p :
  area_type_assigned p -> area_type_assigned (construct net force_load a p).
Proof.
  unfold area_type_assigned.
  destruct p as [[e w t s ty] rq lw]. unfold_init. simpl.
  case_split; intuition congruence.
Qed.

Lemma reachable_area_type_assigned p :
  reachable net p -> area_type_assigned p.
Proof.
  induction 1 as [|p f a Hp IH].
  - intro H. now elim H.
  - now apply construct_area_type_assigned.
Qed.

Lemma no_attribute_error force_load a p :
  area_type_assigned p ->
  snd (UKCovid19Data.__init__ net force_load a p) <> Raised AttributeError.
Proof.
  unfold area_type_assigned.
  destruct p as [[e w t s ty] rq lw]. unfold_init. simpl.
  case_split; exn_origin; intuition congruence.
Qed.

(** The attribute is not even looked up when the first or the second
    disjunct of the condition holds. *)
Lemma guard_short_circuits force_load a p :
  england_cases_data (cls p) = None \/ force_load = true ->
  snd (UKCovid19Data.__init__ net force_load a p) <> Raised AttributeError.
Proof.
  destruct p as [[e w t s ty] rq lw]. unfold_init. simpl.
  intros [->| ->]; case_split; exn_origin; congruence.
Qed.

(** A construction that replaces the England frame has assigned the
    attribute. *)
Lemma england_frame_set_after_area_type force_load a p :
  england_cases_data (cls (construct net force_load a p))
    <> england_cases_data (cls p) ->
  england_area_type (cls (construct net force_load a p)) = Some a.
Proof.
  destruct p as [[e w t s ty] rq lw]. unfold_init. simpl.
  case_split; congruence.
Qed.

(** A construction that enters the England branch assigns the attribute,
    whatever becomes of the load that follows. *)
Lemma area_type_assigned_before_load force_load a p :
  england_cases_data (cls p) = None \/ force_load = true \/
  (exists b, england_area_type (cls p) = Some b /\ b <> a) ->
  england_area_type (cls (construct net force_load a p)) = Some a.
Proof.
  destruct p as [[e w t s ty] rq lw]. unfold_init. simpl.
  intros [->|[->|(b & -> & Hb)]].
  - case_split; reflexivity.
  - case_split; reflexivity.
  - apply String.eqb_neq in Hb.
    destruct e; simpl; [destruct force_load; simpl; rewrite ?Hb; simpl|];
      case_split; reflexivity.
Qed.

Lemma construct_area_type_current force_load a p :
  area_type_current p ->
  returns (UKCovid19Data.__init__ net force_load a) p = true ->
  area_type_current (construct net force_load a p).
Proof.
  unfold area_type_current.
  destruct p as [[e w t s ty] rq lw]. unfold_init. simpl.
  case_split; intuition congruence.
Qed.

Lemma quiet_area_type_current p :
  reachable_quietly net p -> area_type_current p.
Proof.
  induction 1 as [|p f a Hp IH Hret].
  - intro H. now elim H.
  - now apply construct_area_type_current.
Qed.

Lemma quiet_reachable p : reachable_quietly net p -> reachable net p.
Proof.
  induction 1; constructor; assumption.
Qed.

(** With the three frames cached and the cached area type requested again,
    a construction still issues one request, the Wales one, whether it
    then returns or raises; England and Scotland are left alone. *)
Lemma wales_always_refetched a p :
  reachable net p ->
  populated p ->
  england_area_type (cls p) = Some a ->
  requests (construct net false a p) = requests p ++ [cases_url a] /\
  england_cases_data (cls (construct net false a p)) = england_cases_data (cls p) /\
  scotland_cases_data (cls (construct net false a p)) = scotland_cases_data (cls p).
Proof.
  intros Hr (He & Hw & Hs) Hty.
  apply reachable_wales_tests in Hr.
  destruct p as [[e w t s ty] rq lw]. simpl in *. subst t ty.
  unfold_init. simpl.
  destruct e; [|congruence]. destruct w; [|congruence]. destruct s; [|congruence].
  simpl. rewrite String.eqb_refl. simpl.
  case_split; auto.
Qed.

End Constructor.

(* ------------------------------------------------------------------ *)
(** ** Cache reuse and cache invalidation *)

Lemma first_use_steady_reachable : reachable steady_net (first_use steady_net).
Proof. apply reach_construct, reach_startup. Defined.

Lemma first_use_steady_populated : populated (first_use steady_net).
Proof. repeat split; vm_compute; discriminate. Defined.

(** C1. A second construction with the same arguments does fetch: the
    condition of the Wales branch tests [wales_tests_data], which nothing
    ever assigns, so the Wales frame is downloaded again and overwritten.
    Here the feed reports a different Wales count the second time, and the
    cached Wales frame changes. *)
Theorem second_construction_refetches_wales :
  let p1 := first_use drifting_net in
  let p2 := construct drifting_net false "utla" p1 in
  populated p1 /\
  england_area_type (cls p1) = Some "utla"%string /\
  requests p1 = [cases_url "utla"; cases_url "utla"; SCOTLAND_PATH] /\
  requests p2 = requests p1 ++ [cases_url "utla"] /\
  england_cases_data (cls p2) = england_cases_data (cls p1) /\
  scotland_cases_data (cls p2) = scotland_cases_data (cls p1) /\
  wales_cases_data (cls p2) <> wales_cases_data (cls p1).
Proof.
  cbv zeta.
  split; [repeat split; vm_compute; discriminate|].
  split; [vm_compute; reflexivity|].
  split; [vm_compute; reflexivity|].
  split; [vm_compute; reflexivity|].
  split; [vm_compute; reflexivity|].
  split; [vm_compute; reflexivity|].
  vm_compute. discriminate.
Qed.

(** C6. From any state a process can reach with the three frames cached:
    a construction with [force_load] requests the cases feed at once and,
    when it returns, has requested the cases feed twice and the Scotland
    feed once, the England frame coming from the first reply and the Wales
    frame from the second; a construction without [force_load] but with an
    area type other than the cached one does the same for England and
    Wales, issues no Scotland request and keeps the Scotland frame. *)
Theorem reload_refetches (net : Net) (p : Process) (a : string) :
  reachable net p ->
  populated p ->
  (exists rest,
      requests (construct net true a p) = requests p ++ cases_url a :: rest) /\
  (returns (UKCovid19Data.__init__ net true a) p = true ->
   requests (construct net true a p) =
     requests p ++ [cases_url a; cases_url a; SCOTLAND_PATH] /\
   (exists df, england_cases_data (cls (construct net true a p)) = Some df /\
               loaded_from net (length (requests p)) a "England" df) /\
   (exists df, wales_cases_data (cls (construct net true a p)) = Some df /\
               loaded_from net (S (length (requests p))) a "Wales" df) /\
   (exists t df, scotland_cases_data (cls (construct net true a p)) = Some df /\
                 net (S (S (length (requests p)))) SCOTLAND_PATH = Some (ScotlandCsv t) /\
                 reshape_scotland t = Returned df)) /\
  (england_area_type (cls p) <> Some a ->
   (exists rest,
       requests (construct net false a p) = requests p ++ cases_url a :: rest) /\
   (returns (UKCovid19Data.__init__ net false a) p = true ->
    requests (construct net false a p) = requests p ++ [cases_url a; cases_url a] /\
    (exists df, england_cases_data (cls (construct net false a p)) = Some df /\
                loaded_from net (length (requests p)) a "England" df) /\
    (exists df, wales_cases_data (cls (construct net false a p)) = Some df /\
                loaded_from net (S (length (requests p))) a "Wales" df) /\
    scotland_cases_data (cls (construct net false a p)) = scotland_cases_data (cls p))).
Proof.
  intros Hr (He & Hw & Hs).
  assert (Hty := reachable_area_type_assigned net p Hr He).
  apply reachable_wales_tests in Hr.
  unfold loaded_from.
  destruct p as [[e w t s ty] rq lw]. simpl in *. subst t.
  destruct e; [|congruence]. destruct w; [|congruence]. destruct s; [|congruence].
  destruct ty as [b|]; [|congruence].
  assert (Hlen1 : forall u : string, length (rq ++ [u]) = S (length rq))
    by (intro u; rewrite length_app; simpl; lia).
  assert (Hlen2 : forall u v : string,
             length ((rq ++ [u]) ++ [v]) = S (S (length rq)))
    by (intros u v; rewrite !length_app; simpl; lia).
  split; [|split].
  - unfold_init. simpl. case_split; rewrite <- ?app_assoc; simpl; eauto.
  - unfold_init. simpl.
    case_split; try discriminate.
    intros _. rewrite ?Hlen2, ?Hlen1 in *. rewrite <- !app_assoc. simpl.
    repeat split; eauto.
  - intro Hneq.
    assert (Hb : String.eqb b a = false)
      by (apply String.eqb_neq; congruence).
    split.
    + unfold_init. simpl. rewrite Hb. simpl.
      case_split; rewrite <- ?app_assoc; simpl; eauto.
    + unfold_init. simpl. rewrite Hb. simpl.
      case_split; try discriminate.
      intros _. rewrite ?Hlen2, ?Hlen1 in *. rewrite <- !app_assoc. simpl.
      repeat split; eauto.
Qed.

Lemma reload_refetches_witness :
  requests (construct steady_net true "ltla" (first_use steady_net)) =
    requests (first_use steady_net)
    ++ [cases_url "ltla"; cases_url "ltla"; SCOTLAND_PATH] /\
  requests (construct steady_net false "ltla" (first_use steady_net)) =
    requests (first_use steady_net) ++ [cases_url "ltla"; cases_url "ltla"].
Proof.
  destruct (reload_refetches steady_net (first_use steady_net) "ltla"
              first_use_steady_reachable first_use_steady_populated)
    as (_ & Hforce & Htype).
  split.
  - apply Hforce. vm_compute. reflexivity.
  - apply Htype.
    + vm_compute. discriminate.
    + vm_compute. reflexivity.
Defined.

(* ------------------------------------------------------------------ *)
(** ** The attribute [england_area_type] *)

(** C10, as it stands, fails.  First construction: everything is loaded
    with "utla".  Second construction, with "ltla": the attribute is
    assigned, then the England download fails and the constructor raises.
    Third construction, with "ltla" again: the attribute matches, the
    England branch is skipped and the constructor returns.  The cached
    England frame is still the "utla" one while the attribute says "ltla". *)
Lemma failed_load_leaves_stale_area_type :
  let p1 := first_use flaky_net in
  let p2 := construct flaky_net false "ltla" p1 in
  let p3 := construct flaky_net false "ltla" p2 in
  snd (UKCovid19Data.__init__ flaky_net false "utla" startup) = Returned tt /\
  snd (UKCovid19Data.__init__ flaky_net false "ltla" p1) = Raised URLError /\
  snd (UKCovid19Data.__init__ flaky_net false "ltla" p2) = Returned tt /\
  reachable flaky_net p3 /\
  england_cases_data (cls p3) = england_cases_data (cls p1) /\
  england_cases_data (cls p3) <> None /\
  england_area_type (cls p3) = Some "ltla"%string /\
  england_loaded_with p3 = Some "utla"%string /\
  england_area_type (cls p3) <> england_loaded_with p3.
Proof.
  cbv zeta.
  split; [vm_compute; reflexivity|].
  split; [vm_compute; reflexivity|].
  split; [vm_compute; reflexivity|].
  split; [do 3 apply reach_construct; apply reach_startup|].
  split; [vm_compute; reflexivity|].
  split; [vm_compute; discriminate|].
  split; [vm_compute; reflexivity|].
  split; [vm_compute; reflexivity|].
  vm_compute. discriminate.
Qed.

(** C10, amended.  The constructor looks the attribute up only when
    [england_cases_data] is set and [force_load] is false; a construction
    that replaces [england_cases_data] has assigned the attribute to its
    own argument, and the assignment comes first: it is made as soon as the
    England branch is entered, whether the load then succeeds or not; in
    every state a process can reach, a cached England
    frame comes with an assigned attribute, so no construction raises
    AttributeError; and as long as no construction has raised, the
    attribute is the area type that the cached England frame was loaded
    with. *)
Theorem area_type_follows_england_load (net : Net) :
  (forall p force_load a,
      england_cases_data (cls p) = None \/ force_load = true ->
      snd (UKCovid19Data.__init__ net force_load a p) <> Raised AttributeError) /\
  (forall p force_load a,
      england_cases_data (cls (construct net force_load a p))
        <> england_cases_data (cls p) ->
      england_area_type (cls (construct net force_load a p)) = Some a) /\
  (forall p force_load a,
      england_cases_data (cls p) = None \/ force_load = true \/
      (exists b, england_area_type (cls p) = Some b /\ b <> a) ->
      england_area_type (cls (construct net force_load a p)) = Some a) /\
  (forall p,
      reachable net p ->
      england_cases_data (cls p) <> None ->
      england_area_type (cls p) <> None) /\
  (forall p force_load a,
      reachable net p ->
      snd (UKCovid19Data.__init__ net force_load a p) <> Raised AttributeError) /\
  (forall p,
      reachable_quietly net p ->
      england_cases_data (cls p) <> None ->
      england_area_type (cls p) = england_loaded_with p).
Proof.
  split; [|split; [|split; [|split; [|split]]]].
  - intros p f a. apply guard_short_circuits.
  - intros p f a. apply england_frame_set_after_area_type.
  - intros p f a. apply area_type_assigned_before_load.
  - intros p. apply reachable_area_type_assigned.
  - intros p f a Hr. apply no_attribute_error.
    now apply reachable_area_type_assigned with (net := net).
  - intros p. apply quiet_area_type_current.
Qed.

Lemma first_use_steady_quiet : reachable_quietly steady_net (first_use steady_net).
Proof.
  apply quiet_construct; [apply quiet_startup | vm_compute; reflexivity].
Defined.

Lemma area_type_follows_england_load_witness :
  snd (UKCovid19Data.__init__ steady_net false "utla" startup)
    <> Raised AttributeError /\
  snd (UKCovid19Data.__init__ steady_net false "ltla" (first_use steady_net))
    <> Raised AttributeError /\
  england_area_type (cls (first_use steady_net))
    = england_loaded_with (first_use steady_net).
Proof.
  destruct (area_type_follows_england_load steady_net)
    as (Hguard & _ & _ & _ & Hsafe & Hcurrent).
  split; [|split].
  - apply Hguard. left. reflexivity.
  - apply Hsafe. exact first_use_steady_reachable.
  - apply Hcurrent.
    + exact first_use_steady_quiet.
    + vm_compute. discriminate.
Defined.

(* ------------------------------------------------------------------ *)
(** ** [get_cases_data] *)

Section Union.

Lemma nodupb_NoDup l : nodupb l = true <-> NoDup l.
Proof.
  induction l as [|x l IH]; simpl.
  - split; [constructor | reflexivity].
  - rewrite andb_true_iff, negb_true_iff, mem_false, IH.
    split.
    + intros [H1 H2]. now constructor.
    + intro H. inversion H; subst. now split.
Qed.

Lemma fold_add_label_In ls : forall acc d,
  In d (fold_left (fun acc d => if mem d acc then acc else acc ++ [d]) ls acc) <-> In d acc \/ In d ls.
Proof.
  induction ls as [|x ls IH]; intros acc d; simpl; [tauto|].
  rewrite IH.
  destruct (mem x acc) eqn:E.
  - apply mem_In in E. split; [tauto|].
    intros [H|[->|H]]; tauto.
  - rewrite in_app_iff. simpl. tauto.
Qed.

Lemma fold_add_label_NoDup ls : forall acc,
  NoDup acc -> NoDup (fold_left (fun acc d => if mem d acc then acc else acc ++ [d]) ls acc).
Proof.
  induction ls as [|x ls IH]; intros acc Hnd; simpl; [assumption|].
  apply IH.
  destruct (mem x acc) eqn:E; [assumption|].
  apply mem_false in E.
  apply NoDup_app; [assumption | repeat constructor; simpl; tauto |].
  intros y Hy [<-|[]]. contradiction.
Qed.

Lemma union_labels_In ls d : In d (union_labels ls) <-> In d ls.
Proof.
  unfold union_labels.
  rewrite fold_add_label_In. simpl. tauto.
Qed.

Lemma union_labels_NoDup ls : NoDup (union_labels ls).
Proof.
  unfold union_labels.
  apply fold_add_label_NoDup. constructor.
Qed.

Lemma fillna_nans n :
  map (fillna_cell 0%float) (repeat nan n) = repeat 0%float n.
Proof.
  induction n; simpl; [reflexivity | now f_equal].
Qed.

Lemma fillna_reindexed f d :
  map (fillna_cell 0%float) (reindexed f d) = filled_column f d.
Proof.
  unfold reindexed, filled_column.
  destruct (column_of d (columns f)); [reflexivity | apply fillna_nans].
Qed.

End Union.

(** C5. With the three frames cached, each with unique date labels, the
    read returns, without touching the process, a frame whose rows are the
    England rows, then the Wales rows, then the Scotland rows; whose labels
    are, without repetition, exactly the dates that label a column of one
    of the three; and whose column for a date is the three nations' blocks
    one after the other, a nation's block being its own cells with NaN
    turned into 0.0 when it has the date, and 0.0 on each of its rows when
    it has not. *)
Theorem combined_is_zero_filled_union (p : Process) (eng wal sco : DataFrame) :
  england_cases_data (cls p) = Some eng ->
  wales_cases_data (cls p) = Some wal ->
  scotland_cases_data (cls p) = Some sco ->
  NoDup (labels eng) -> NoDup (labels wal) -> NoDup (labels sco) ->
  exists out,
    UKCovid19Data.get_cases_data p = (p, Returned out) /\
    index out = index eng ++ index wal ++ index sco /\
    NoDup (labels out) /\
    (forall d, In d (labels out) <->
               In d (labels eng) \/ In d (labels wal) \/ In d (labels sco)) /\
    (forall d, In d (labels out) ->
               column_of d (columns out) =
               Some (filled_column eng d ++ filled_column wal d ++ filled_column sco d)) /\
    (forall d, ~ In d (labels eng) ->
               filled_column eng d = repeat 0%float (length (index eng))) /\
    (forall d, ~ In d (labels wal) ->
               filled_column wal d = repeat 0%float (length (index wal))) /\
    (forall d, ~ In d (labels sco) ->
               filled_column sco d = repeat 0%float (length (index sco))).
Proof.
  intros He Hw Hs Ne Nw Ns.
  unfold UKCovid19Data.get_cases_data, bind, getattrs, ret.
  rewrite He, Hw, Hs. unfold concat.
  change (somes [Some eng; Some wal; Some sco]) with [eng; wal; sco].
  cbv iota beta zeta.
  assert (Hu : forallb (fun f => nodupb (labels f)) [eng; wal; sco] = true).
  { simpl. rewrite !andb_true_iff. repeat split; now apply nodupb_NoDup. }
  rewrite Hu.
  set (ls := union_labels (flat_map labels [eng; wal; sco])).
  set (block := fun d => filled_column eng d ++ filled_column wal d ++ filled_column sco d).
  assert (Hcols :
            columns (fillna 0%float
                       (mkDataFrame (flat_map index [eng; wal; sco])
                          (map (fun d => (d, flat_map (fun f => reindexed f d) [eng; wal; sco])) ls)))
            = map (fun d => (d, block d)) ls).
  { unfold fillna. simpl. rewrite map_map. apply map_ext. intro d. simpl.
    rewrite app_nil_r, !map_app, !fillna_reindexed. reflexivity. }
  assert (Hlab :
            labels (fillna 0%float
                      (mkDataFrame (flat_map index [eng; wal; sco])
                         (map (fun d => (d, flat_map (fun f => reindexed f d) [eng; wal; sco])) ls)))
            = ls).
  { unfold labels. rewrite Hcols. apply labels_tabulate. }
  assert (Hin : forall d, In d ls <->
                          In d (labels eng) \/ In d (labels wal) \/ In d (labels sco)).
  { intro d. unfold ls. rewrite union_labels_In. simpl.
    rewrite app_nil_r, !in_app_iff. tauto. }
  eexists. split; [reflexivity|].
  rewrite Hlab, Hcols.
  split; [simpl; now rewrite app_nil_r|].
  split; [apply union_labels_NoDup|].
  split; [exact Hin|].
  split; [intros d Hd; now rewrite (column_of_tabulate (f := block) d ls Hd)|].
  repeat split; intros d Hd; unfold filled_column;
    apply column_of_None in Hd; now rewrite Hd.
Qed.

Lemma uneven_cache_columns :
  NoDup (labels (mkDataFrame [("England", "Hartlepool")]%string
                   (map (fun d => (d, [1%float])) (date_range 18628 18632)))) /\
  NoDup (labels (mkDataFrame [("Wales", "Isle of Anglesey")]%string
                   (map (fun d => (d, [2%float])) (date_range 18628 18632)))) /\
  NoDup (labels (mkDataFrame [("Scotland", "Fife")]%string
                   (map (fun d => (d, [3%float])) (date_range 18630 18634)))).
Proof.
  unfold labels. cbn [columns].
  rewrite !map_map. cbn [fst]. rewrite !map_id.
  repeat split; apply strict_nodup, date_range_strict.
Defined.

(** England spans 2021-01-01..05 and Scotland 2021-01-03..07: the combined
    frame spans 2021-01-01..07, England is 0.0 on the 6th and the 7th,
    Scotland is 0.0 on the 1st and the 2nd. *)
Lemma combined_is_zero_filled_union_witness :
  exists out,
    UKCovid19Data.get_cases_data uneven_cache = (uneven_cache, Returned out) /\
    (forall d, In d (labels out) <-> 18628 <= d <= 18634) /\
    column_of 18628 (columns out) = Some [1; 2; 0]%float /\
    column_of 18629 (columns out) = Some [1; 2; 0]%float /\
    column_of 18630 (columns out) = Some [1; 2; 3]%float /\
    column_of 18633 (columns out) = Some [0; 0; 3]%float /\
    column_of 18634 (columns out) = Some [0; 0; 3]%float.
Proof.
  destruct uneven_cache_columns as (Ne & Nw & Ns).
  destruct (combined_is_zero_filled_union uneven_cache _ _ _
              eq_refl eq_refl eq_refl Ne Nw Ns)
    as (out & Hget & _ & _ & Hin & Hcol & _).
  assert (Hspan : forall d, In d (labels out) <-> 18628 <= d <= 18634).
  { intro d. rewrite Hin. unfold labels. cbn [columns].
    rewrite !map_map. cbn [fst]. rewrite !map_id, !date_range_In. lia. }
  exists out. split; [exact Hget|]. split; [exact Hspan|].
  repeat split; (rewrite Hcol; [reflexivity | apply Hspan; lia]).
Defined.

(** The same combined frame, computed. *)
Example combined_uneven_cache :
  snd (UKCovid19Data.get_cases_data uneven_cache) =
  Returned
    (mkDataFrame
       [("England", "Hartlepool"); ("Wales", "Isle of Anglesey"); ("Scotland", "Fife")]%string
       [(18628, [1; 2; 0]%float); (18629, [1; 2; 0]%float); (18630, [1; 2; 3]%float);
        (18631, [1; 2; 3]%float); (18632, [1; 2; 3]%float); (18633, [0; 0; 3]%float);
        (18634, [0; 0; 3]%float)]).
Proof. vm_compute. reflexivity. Qed.

(* ------------------------------------------------------------------ *)
(** ** [_backfill_missing_data] on arbitrary frames *)

Section BackfillAnyFrame.

Variable P : Column -> Prop.

Lemma setitem_index df d v : index (setitem df d v) = index df.
Proof.
  unfold setitem. destruct (mem d (labels df)); reflexivity.
Qed.

Lemma setitem_columns df d v :
  Forall P (columns df) ->
  P (d, repeat v (length (index df))) ->
  Forall P (columns (setitem df d v)).
Proof.
  intros Hall Hnew. unfold setitem.
  destruct (mem d (labels df)); simpl.
  - rewrite Forall_forall in *. intros c Hc.
    apply in_map_iff in Hc. destruct Hc as (c0 & <- & Hc0).
    destruct (fst c0 =? d); auto.
  - apply Forall_app. split; [assumption | now constructor].
Qed.

Lemma fold_setitem ds : forall df,
  Forall P (columns df) ->
  (forall d, P (d, repeat 0%float (length (index df)))) ->
  let out := fold_left (fun df d => setitem df d 0%float) ds df in
  index out = index df /\ Forall P (columns out).
Proof.
  induction ds as [|d ds IH]; intros df Hall Hnew; simpl; [auto|].
  destruct (IH (setitem df d 0%float)) as [Hi Hc].
  - apply setitem_columns; auto.
  - intro d'. rewrite setitem_index. apply Hnew.
  - rewrite setitem_index in Hi. auto.
Qed.

Lemma getitem_columns df ls :
  Forall P (columns df) -> Forall P (columns (getitem df ls)).
Proof.
  intro Hall. unfold getitem. simpl.
  rewrite Forall_forall in *. intros c Hc.
  apply in_flat_map in Hc. destruct Hc as (l & _ & Hc).
  apply filter_In in Hc. now apply Hall.
Qed.

(** What holds of every input column once its NaN are replaced, and of
    every all-zero column, holds of every column of the result. *)
Lemma backfill_columns df out :
  (forall c, In c (columns df) -> P (fst c, map (fillna_cell 0%float) (snd c))) ->
  (forall d, P (d, repeat 0%float (length (index df)))) ->
  _backfill_missing_data df = Some out ->
  index out = index df /\ Forall P (columns out).
Proof.
  intros Hold Hnew. unfold _backfill_missing_data.
  destruct (index_min _) as [lo|]; [|discriminate].
  destruct (index_max _) as [hi|]; [|discriminate].
  intros [= <-].
  destruct (fold_setitem (setdiff1d (date_range lo hi) (labels (fillna 0%float df)))
              (fillna 0%float df)) as [Hi Hc].
  - unfold fillna. simpl. apply Forall_forall. intros c Hc.
    apply in_map_iff in Hc. destruct Hc as (c0 & <- & Hc0). now apply Hold.
  - exact Hnew.
  - split; [exact Hi|]. now apply getitem_columns.
Qed.

End BackfillAnyFrame.

Lemma fillna_cell_not_nan x : is_nan (fillna_cell 0%float x) = false.
Proof.
  unfold fillna_cell. destruct (is_nan x) eqn:E; [reflexivity | exact E].
Qed.

Lemma zeros_not_nan n : Forall (fun x => is_nan x = false) (repeat 0%float n).
Proof.
  induction n; simpl; constructor; auto.
Qed.

Lemma backfill_none_iff df :
  _backfill_missing_data df = None <-> columns df = [].
Proof.
  unfold _backfill_missing_data. rewrite labels_fillna. unfold labels.
  destruct (columns df) as [|c cs]; simpl; split; intro H;
    try reflexivity; discriminate.
Qed.

(** X1. [_backfill_missing_data] raises exactly on a frame without columns.
    On any other frame, repeated labels included, it returns a frame with
    the rows of its argument. *)
Theorem backfill_raises_iff_no_column (df : DataFrame) :
  (_backfill_missing_data df = None <-> columns df = []) /\
  (forall out, _backfill_missing_data df = Some out -> index out = index df).
Proof.
  split.
  - apply backfill_none_iff.
  - intros out Hout.
    apply (backfill_columns (fun _ => True) df out); auto.
Qed.

Lemma backfill_raises_iff_no_column_witness :
  exists out,
    _backfill_missing_data repeated_frame = Some out /\
    index out = index repeated_frame.
Proof.
  eexists. split; [vm_compute; reflexivity|].
  apply (proj2 (backfill_raises_iff_no_column repeated_frame)).
  vm_compute. reflexivity.
Defined.

Lemma backfill_no_nan df out :
  _backfill_missing_data df = Some out -> no_nan out.
Proof.
  intro Hout.
  apply (backfill_columns _ df out); [| |exact Hout].
  - intros c _. simpl. apply Forall_forall. intros x Hx.
    apply in_map_iff in Hx. destruct Hx as (y & <- & _).
    apply fillna_cell_not_nan.
  - intro d. apply zeros_not_nan.
Qed.

Lemma backfill_well_shaped df out :
  _backfill_missing_data df = Some out -> well_shaped df -> well_shaped out.
Proof.
  intros Hout Hshape. unfold well_shaped.
  destruct (backfill_columns
              (fun c => length (snd c) = length (index df)) df out) as [Hi Hc].
  - intros c Hc. simpl. rewrite length_map.
    unfold well_shaped in Hshape. rewrite Forall_forall in Hshape. auto.
  - intro d. simpl. apply repeat_length.
  - exact Hout.
  - now rewrite Hi.
Qed.

(** X2. Whatever the frame, the frame that [_backfill_missing_data] returns
    holds no NaN, and it has one cell per row in every column when its
    argument has. *)
Theorem backfill_result_is_clean (df out : DataFrame) :
  _backfill_missing_data df = Some out ->
  no_nan out /\ (well_shaped df -> well_shaped out).
Proof.
  intro Hout. split.
  - now apply backfill_no_nan with (df := df).
  - now apply backfill_well_shaped.
Qed.

Lemma backfill_result_is_clean_witness :
  exists out,
    _backfill_missing_data repeated_frame = Some out /\
    no_nan out /\ well_shaped out.
Proof.
  eexists. split; [vm_compute; reflexivity|].
  match goal with
  | |- no_nan ?o /\ _ =>
      destruct (backfill_result_is_clean repeated_frame o) as [Hn Hs]
  end.
  - vm_compute. reflexivity.
  - split; [exact Hn|]. apply Hs.
    repeat constructor.
Defined.

(* ------------------------------------------------------------------ *)
(** ** Row keys of a pivot *)

Section RowKeys.

Lemma string_compare_refl s : String.compare s s = Eq.
Proof. now apply OrderedTypeEx.String_as_OT.cmp_eq. Qed.

Lemma string_compare_trans a b c :
  String.compare a b = Lt -> String.compare b c = Lt -> String.compare a c = Lt.
Proof.
  intros H1 H2.
  apply OrderedTypeEx.String_as_OT.cmp_lt in H1, H2.
  apply OrderedTypeEx.String_as_OT.cmp_lt.
  eapply OrderedTypeEx.String_as_OT.lt_trans; eassumption.
Qed.

Lemma key_compare_eq a b : key_compare a b = Eq -> a = b.
Proof.
  unfold key_compare. destruct a as [a1 a2], b as [b1 b2]. simpl.
  destruct (String.compare a1 b1) eqn:E1; try discriminate.
  intro E2. apply String.compare_eq_iff in E1, E2. now subst.
Qed.

Lemma key_lt_irrefl a : ~ key_lt a a.
Proof.
  unfold key_lt, key_compare. rewrite !string_compare_refl. discriminate.
Qed.

Lemma key_lt_trans a b c : key_lt a b -> key_lt b c -> key_lt a c.
Proof.
  unfold key_lt, key_compare.
  destruct a as [a1 a2], b as [b1 b2], c as [c1 c2]. simpl.
  destruct (String.compare a1 b1) eqn:E1; try discriminate;
    destruct (String.compare b1 c1) eqn:E2; try discriminate; intros H1 H2.
  - apply String.compare_eq_iff in E1, E2. subst.
    rewrite string_compare_refl. eapply string_compare_trans; eassumption.
  - apply String.compare_eq_iff in E1. subst. now rewrite E2.
  - apply String.compare_eq_iff in E2. subst. now rewrite E1.
  - now rewrite (string_compare_trans _ _ _ E1 E2).
Qed.

Lemma key_compare_gt a b : key_compare a b = Gt -> key_lt b a.
Proof.
  unfold key_lt, key_compare. destruct a as [a1 a2], b as [b1 b2]. simpl.
  rewrite (String.compare_antisym b1 a1), (String.compare_antisym b2 a2).
  destruct (String.compare a1 b1); simpl; try discriminate; auto.
  destruct (String.compare a2 b2); simpl; try discriminate; auto.
Qed.

Lemma insert_key_In k l x : In x (insert_key k l) <-> x = k \/ In x l.
Proof.
  induction l as [|k' r IH]; simpl; [intuition|].
  destruct (key_compare k k') eqn:E; simpl.
  - apply key_compare_eq in E. subst. intuition.
  - intuition.
  - rewrite IH. intuition.
Qed.

Lemma insert_key_sorted k l :
  StronglySorted key_lt l -> StronglySorted key_lt (insert_key k l).
Proof.
  induction 1 as [|k' r Hr IH Hk']; simpl.
  - repeat constructor.
  - destruct (key_compare k k') eqn:E.
    + now constructor.
    + constructor; [now constructor|].
      constructor; [exact E|].
      eapply Forall_impl; [|exact Hk'].
      intros x Hx. eapply key_lt_trans; eassumption.
    + constructor; [exact IH|].
      apply Forall_forall. intros x Hx.
      apply insert_key_In in Hx. destruct Hx as [->|Hx].
      * now apply key_compare_gt.
      * rewrite Forall_forall in Hk'. now apply Hk'.
Qed.

Lemma sorted_keys_sorted l : StronglySorted key_lt (sorted_keys l).
Proof.
  induction l; simpl; [constructor | now apply insert_key_sorted].
Qed.

Lemma sorted_keys_In l x : In x (sorted_keys l) <-> In x l.
Proof.
  induction l as [|k l IH]; simpl; [tauto|].
  rewrite insert_key_In, IH. intuition.
Qed.

Lemma key_sorted_nodup l : StronglySorted key_lt l -> NoDup l.
Proof.
  induction 1 as [|k r Hr IH Hk]; constructor; auto.
  intro Hin. rewrite Forall_forall in Hk.
  exact (key_lt_irrefl k (Hk k Hin)).
Qed.

Lemma key_eqb_eq a b : key_eqb a b = true -> a = b.
Proof.
  unfold key_eqb. destruct a, b. simpl.
  rewrite andb_true_iff, !String.eqb_eq. intros [-> ->]. reflexivity.
Qed.

(** A mean that is not NaN averages at least one value that is not NaN. *)
Lemma mean_reported vs :
  is_nan (mean vs) = false -> exists v, In v vs /\ is_nan v = false.
Proof.
  unfold mean.
  destruct (filter (fun v => negb (is_nan v)) vs) as [|v r] eqn:E.
  - vm_compute. discriminate.
  - intros _. assert (Hv : In v (filter (fun v => negb (is_nan v)) vs))
      by (rewrite E; now left).
    apply filter_In in Hv. destruct Hv as [Hin Hn].
    exists v. split; [exact Hin | now apply negb_true_iff].
Qed.

(** Every row of a pivot has a reported observation behind it. *)
Lemma pivot_table_rows es k :
  In k (index (pivot_table es)) ->
  exists d v, In (k, d, v) es /\ is_nan v = false.
Proof.
  unfold pivot_table. simpl. rewrite sorted_keys_In, in_map_iff.
  intros (e & <- & He). apply filter_In in He. destruct He as [_ Hagg].
  apply negb_true_iff, mean_reported in Hagg.
  destruct Hagg as (v & Hv & Hn). unfold group in Hv.
  apply in_map_iff in Hv. destruct Hv as (e' & <- & He').
  apply filter_In in He'. destruct He' as [Hin Hsame].
  apply andb_true_iff in Hsame. destruct Hsame as [Hk Hd].
  apply key_eqb_eq in Hk. apply Z.eqb_eq in Hd.
  exists (snd (fst e')), (snd e'). split; [|exact Hn].
  destruct e' as [[k' d'] v']. simpl in *. now subst.
Qed.

Lemma pivot_table_well_shaped es : well_shaped (pivot_table es).
Proof.
  unfold well_shaped, pivot_table. simpl.
  apply Forall_forall. intros c Hc.
  apply in_map_iff in Hc. destruct Hc as (d & <- & _).
  simpl. apply length_map.
Qed.

Lemma traverse_In {A B} (f : A -> option B) l : forall bs b,
  traverse f l = Some bs -> In b bs -> exists a, In a l /\ f a = Some b.
Proof.
  induction l as [|a l IH]; simpl; intros bs b.
  - intros [= <-] [].
  - destruct (f a) as [b0|] eqn:E; [|discriminate].
    destruct (traverse f l) as [bs0|]; [|discriminate].
    intros [= <-] [<-|Hb].
    + exists a. auto.
    + destruct (IH bs0 b eq_refl Hb) as (a' & Ha' & Hf). exists a'. auto.
Qed.

Lemma traverse_None {A B} (f : A -> option B) l a :
  In a l -> f a = None -> traverse f l = None.
Proof.
  induction l as [|a0 l IH]; simpl; [tauto|].
  intros [->|Hin] Hf.
  - now rewrite Hf.
  - rewrite (IH Hin Hf). now destruct (f a0).
Qed.

End RowKeys.

(* ------------------------------------------------------------------ *)
(** ** What [_load_cases_dataset] returns, and when it raises *)

Section CasesFrame.

Variable country : string.
Variable rows : list CasesRow.

(** The long table handed to the pivot: one observation per matching row. *)
Lemma reshape_cases_inv df :
  reshape_cases country rows = Returned df ->
  exists long,
    traverse
      (fun r => option_map
                  (fun d => ((country, areaName r), d, newCasesBySpecimenDate r))
                  (to_datetime (date r)))
      (filter (matches country) rows) = Some long /\
    _backfill_missing_data (pivot_table long) = Some df.
Proof.
  unfold reshape_cases, matches.
  destruct (first_letter country); [|discriminate].
  destruct (traverse _ _) as [long|]; [|discriminate].
  destruct (_backfill_missing_data (pivot_table long)) as [out|] eqn:E;
    [|discriminate].
  intros [= <-]. eauto.
Qed.

Lemma reshape_cases_sorted_labels df :
  reshape_cases country rows = Returned df -> StronglySorted Z.lt (labels df).
Proof.
  intro H. destruct (reshape_cases_inv df H) as (long & _ & E).
  assert (Hne : columns (pivot_table long) <> []).
  { intro Hnil. apply backfill_none_iff in Hnil. congruence. }
  destruct (extrema_exist _ Hne) as (lo & hi & Hlo & Hhi).
  rewrite (backfill_closed_form _ lo hi (pivot_table_unique_labels long) Hlo Hhi) in E.
  injection E as <-. unfold labels. simpl. rewrite labels_tabulate.
  apply date_range_strict.
Qed.

Lemma reshape_cases_index df :
  reshape_cases country rows = Returned df ->
  exists long,
    traverse
      (fun r => option_map
                  (fun d => ((country, areaName r), d, newCasesBySpecimenDate r))
                  (to_datetime (date r)))
      (filter (matches country) rows) = Some long /\
    index df = index (pivot_table long).
Proof.
  intro H. destruct (reshape_cases_inv df H) as (long & Ht & E).
  exists long. split; [exact Ht|].
  now apply (backfill_columns (fun _ => True) (pivot_table long) df).
Qed.

End CasesFrame.

Lemma reshape_cases_clean country rows df :
  reshape_cases country rows = Returned df -> no_nan df /\ well_shaped df.
Proof.
  intro H.
  destruct (reshape_cases_inv country rows df H) as (long & _ & E).
  split.
  - now apply backfill_no_nan with (df := pivot_table long).
  - apply backfill_well_shaped with (df := pivot_table long); [exact E|].
    apply pivot_table_well_shaped.
Qed.

(** X3. A frame returned by [_load_cases_dataset] is ready to use: its
    date labels are strictly ascending and leave out no day between the
    first and the last, no cell is NaN, and every column has one cell per
    row. *)
Theorem cases_frame_is_complete (country : string) (rows : list CasesRow)
    (df : DataFrame) :
  reshape_cases country rows = Returned df ->
  StronglySorted Z.lt (labels df) /\
  date_complete df /\
  no_nan df /\
  well_shaped df.
Proof.
  intro H.
  split; [now apply reshape_cases_sorted_labels with (country := country) (rows := rows)|].
  split; [now apply reshape_cases_date_complete with (country := country) (rows := rows)|].
  now apply reshape_cases_clean with (country := country) (rows := rows).
Qed.

Lemma cases_frame_is_complete_witness :
  exists df,
    reshape_cases "England" scenario_rows = Returned df /\
    StronglySorted Z.lt (labels df) /\
    date_complete df /\
    no_nan df /\
    well_shaped df.
Proof.
  eexists. split; [vm_compute; reflexivity|].
  apply (cases_frame_is_complete "England" scenario_rows).
  vm_compute. reflexivity.
Defined.

Lemma reshape_cases_keys country rows df :
  reshape_cases country rows = Returned df ->
  StronglySorted key_lt (index df) /\
  (forall k, In k (index df) ->
     fst k = country /\
     exists r, In r rows /\
               matches country r = true /\
               areaName r = snd k /\
               is_nan (newCasesBySpecimenDate r) = false).
Proof.
  intro H. destruct (reshape_cases_index country rows df H) as (long & Ht & ->).
  split; [apply sorted_keys_sorted|].
  intros k Hk. apply pivot_table_rows in Hk. destruct Hk as (d & v & Hin & Hv).
  destruct (traverse_In _ _ _ _ Ht Hin) as (r & Hr & Hf).
  apply filter_In in Hr. destruct Hr as [Hr Hm].
  destruct (to_datetime (date r)); [|discriminate].
  simpl in Hf. injection Hf as <- _ <-.
  split; [reflexivity|]. exists r. auto.
Qed.

Lemma reshape_cases_backfilled country rows df :
  reshape_cases country rows = Returned df -> backfilled_frame_of country df.
Proof.
  intro H. unfold backfilled_frame_of.
  destruct (reshape_cases_clean _ _ _ H) as [Hn Hw].
  destruct (reshape_cases_keys _ _ _ H) as [Hs Hk].
  split; [now apply reshape_cases_sorted_labels with (country := country) (rows := rows)|].
  split; [now apply reshape_cases_date_complete with (country := country) (rows := rows)|].
  repeat split; auto.
  - now apply key_sorted_nodup.
  - intros k Hin. now apply Hk.
Qed.

(** X4. The rows of a frame returned by [_load_cases_dataset]: no key
    occurs twice, the keys are in ascending order, every key is the
    requested country with the area name of a feed row whose area code
    starts with the country's first letter, and that area has at least one
    count in the feed that is not NaN. *)
Theorem cases_frame_rows (country : string) (rows : list CasesRow)
    (df : DataFrame) :
  reshape_cases country rows = Returned df ->
  NoDup (index df) /\
  StronglySorted key_lt (index df) /\
  (forall k, In k (index df) ->
     fst k = country /\
     exists r, In r rows /\
               matches country r = true /\
               areaName r = snd k /\
               is_nan (newCasesBySpecimenDate r) = false).
Proof.
  intro H. destruct (reshape_cases_keys country rows df H) as [Hs Hk].
  split; [now apply key_sorted_nodup|]. split; assumption.
Qed.

Lemma cases_frame_rows_witness :
  exists df,
    reshape_cases "England" scenario_rows = Returned df /\
    NoDup (index df) /\
    (forall k, In k (index df) -> fst k = "England"%string).
Proof.
  eexists. split; [vm_compute; reflexivity|].
  match goal with
  | |- NoDup (index ?d) /\ _ =>
      destruct (cases_frame_rows "England" scenario_rows d) as (Hn & _ & Hk)
  end.
  - vm_compute. reflexivity.
  - split; [exact Hn|]. intros k Hin. now apply Hk.
Defined.



(* ------------------------------------------------------------------ *)
(** ** The shape of the Scotland frame *)

Section ScotlandShape.




Variable n : nat.

Let tall (c : Column) : Prop := length (snd c) = n.

Lemma iloc_col_tall cs i :
  Forall tall cs -> (i < length cs)%nat -> length (iloc_col cs i) = n.
Proof.
  intros Hall Hi. unfold iloc_col.
  rewrite Forall_forall in Hall. apply Hall. now apply nth_In.
Qed.

Lemma iloc_set_col_tall cs : forall i vs,
  Forall tall cs -> ((i < length cs)%nat -> length vs = n) ->
  Forall tall (iloc_set_col cs i vs).
Proof.
  induction cs as [|c cs IH]; intros [|i] vs Hall Hvs; simpl; auto.
  - inversion Hall; subst. constructor; [|assumption].
    apply Hvs. simpl. lia.
  - inversion Hall; subst. constructor; [assumption|].
    apply IH; [assumption|]. intro Hi. apply Hvs. simpl. lia.
Qed.

Lemma series_sub_length a b :
  length a = n -> length b = n -> length (series_sub a b) = n.
Proof.
  intros Ha Hb. unfold series_sub.
  rewrite length_map, length_combine. lia.
Qed.

Lemma difference_at_tall cs i : Forall tall cs -> Forall tall (difference_at cs i).
Proof.
  intro Hall. unfold difference_at.
  apply iloc_set_col_tall; [assumption|].
  intro Hi. apply series_sub_length; apply iloc_col_tall; auto. lia.
Qed.

Lemma cumulative_to_daily_tall cs :
  Forall tall cs -> Forall tall (cumulative_to_daily cs).
Proof.
  intro Hall. rewrite cumulative_to_daily_unfold.
  induction (seq 2 (length cs - 1 - 1)) as [|i l IH]; simpl; [assumption|].
  now apply difference_at_tall.
Qed.

End ScotlandShape.

Lemma reshape_scotland_well_shaped t df :
  reshape_scotland t = Returned df -> well_shaped df.
Proof.
  unfold reshape_scotland.
  destruct (traverse _ _) as [dates|]; [|discriminate].
  intros [= <-]. unfold well_shaped. simpl. rewrite length_map.
  apply cumulative_to_daily_tall.
  apply Forall_forall. intros [d vs] Hc.
  apply in_combine_r in Hc. apply in_map_iff in Hc.
  destruct Hc as (r & <- & _). simpl. now rewrite length_map, length_seq.
Qed.



(* ------------------------------------------------------------------ *)
(** ** More on the constructor *)

Lemma cases_url_not_scotland a : cases_url a <> SCOTLAND_PATH.
Proof.
  unfold cases_url, UK_CASES_PATH_before, SCOTLAND_PATH. simpl. discriminate.
Qed.

(** In the branch that skips the England load the attribute equals the
    argument. *)
Ltac same_area_type :=
  repeat match goal with
         | H : negb (String.eqb _ _) = false |- _ =>
             apply negb_false_iff, String.eqb_eq in H; subst
         end.

Section ConstructorMore.

Variable net : Net.

Lemma construct_keeps_frames force_load a p :
  (england_cases_data (cls p) <> None ->
   england_cases_data (cls (construct net force_load a p)) <> None) /\
  (wales_cases_data (cls p) <> None ->
   wales_cases_data (cls (construct net force_load a p)) <> None) /\
  (scotland_cases_data (cls p) <> None ->
   scotland_cases_data (cls (construct net force_load a p)) <> None).
Proof.
  destruct p as [[e w t s ty] rq lw]. unfold_init. simpl.
  case_split; intuition congruence.
Qed.

Lemma construct_returned_populated force_load a p :
  returns (UKCovid19Data.__init__ net force_load a) p = true ->
  populated (construct net force_load a p) /\
  england_area_type (cls (construct net force_load a p)) = Some a.
Proof.
  unfold populated.
  destruct p as [[e w t s ty] rq lw]. unfold_init. simpl.
  case_split; same_area_type; intros; try discriminate;
    repeat split; congruence.
Qed.

(** Frames cached by the constructor come from [_load_cases_dataset]. *)
Variable Q : string -> DataFrame -> Prop.
Hypothesis Q_loaded :
  forall country rows df, reshape_cases country rows = Returned df -> Q country df.

Lemma construct_frames_satisfy force_load a p :
  frames_satisfy Q p -> frames_satisfy Q (construct net force_load a p).
Proof.
  unfold frames_satisfy.
  destruct p as [[e w t s ty] rq lw]. unfold_init. simpl.
  case_split; intros [He Hw]; split; intros df H;
    try discriminate; try (injection H as <-); eauto.
Qed.

Lemma reachable_frames_satisfy p : reachable net p -> frames_satisfy Q p.
Proof.
  induction 1 as [|p f a Hp IH].
  - split; intros df; discriminate.
  - now apply construct_frames_satisfy.
Qed.

End ConstructorMore.

Section ScotlandCached.

Variable net : Net.
Variable R : DataFrame -> Prop.
Hypothesis R_loaded : forall t df, reshape_scotland t = Returned df -> R df.

Lemma construct_scotland_satisfies force_load a p :
  (forall df, scotland_cases_data (cls p) = Some df -> R df) ->
  forall df,
    scotland_cases_data (cls (construct net force_load a p)) = Some df -> R df.
Proof.
  destruct p as [[e w t s ty] rq lw]. unfold_init. simpl.
  case_split; intros Hs df H;
    try discriminate; try (injection H as <-); eauto.
Qed.

Lemma reachable_scotland_satisfies p :
  reachable net p ->
  forall df, scotland_cases_data (cls p) = Some df -> R df.
Proof.
  induction 1 as [|p f a Hp IH].
  - intros df; discriminate.
  - now apply construct_scotland_satisfies.
Qed.

End ScotlandCached.

(* ------------------------------------------------------------------ *)
(** ** The constructor: what a caller can rely on *)

(** X8. No construction loses a cached frame: whatever the arguments and
    whether it returns or raises, a frame that was cached before is cached
    after (possibly replaced); so a process that has its three frames keeps
    having them. *)
Theorem cached_frames_persist (net : Net) (force_load : bool) (a : string)
    (p : Process) :
  (england_cases_data (cls p) <> None ->
   england_cases_data (cls (construct net force_load a p)) <> None) /\
  (wales_cases_data (cls p) <> None ->
   wales_cases_data (cls (construct net force_load a p)) <> None) /\
  (scotland_cases_data (cls p) <> None ->
   scotland_cases_data (cls (construct net force_load a p)) <> None) /\
  (populated p -> populated (construct net force_load a p)).
Proof.
  destruct (construct_keeps_frames net force_load a p) as (He & Hw & Hs).
  repeat split; auto; destruct H as (H1 & H2 & H3); auto.
Qed.

Lemma cached_frames_persist_witness :
  populated (construct dead_net true "ltla" (first_use steady_net)).
Proof.
  apply cached_frames_persist. exact first_use_steady_populated.
Defined.

(** X9. When the constructor returns, from any state at all, the three
    frames are cached and the attribute [england_area_type] is the area
    type that was asked for. *)
Theorem returned_construction_populates (net : Net) (force_load : bool)
    (a : string) (p : Process) :
  returns (UKCovid19Data.__init__ net force_load a) p = true ->
  populated (construct net force_load a p) /\
  england_area_type (cls (construct net force_load a p)) = Some a.
Proof.
  apply construct_returned_populated.
Qed.

Lemma returned_construction_populates_witness :
  populated (construct steady_net false "ltla" (first_use steady_net)) /\
  england_area_type (cls (construct steady_net false "ltla" (first_use steady_net)))
    = Some "ltla"%string.
Proof.
  apply returned_construction_populates. vm_compute. reflexivity.
Defined.

(** X10. Without [force_load], a cached Scotland frame is kept as it is
    and the Scotland feed is not requested; and a cached England frame is
    kept as it is when the attribute equals the requested area type. *)
Theorem frames_reused_without_force (net : Net) (a : string) (p : Process) :
  (forall s, scotland_cases_data (cls p) = Some s ->
     scotland_cases_data (cls (construct net false a p)) = Some s /\
     exists rest,
       requests (construct net false a p) = requests p ++ rest /\
       ~ In SCOTLAND_PATH rest) /\
  (forall e, england_cases_data (cls p) = Some e ->
     england_area_type (cls p) = Some a ->
     england_cases_data (cls (construct net false a p)) = Some e /\
     england_loaded_with (construct net false a p) = england_loaded_with p).
Proof.
  destruct p as [[e w t s ty] rq lw]. simpl. split.
  - intros s0 ->. unfold_init. simpl.
    assert (Hu := cases_url_not_scotland a).
    case_split; (split; [reflexivity|]); rewrite <- ?app_assoc; simpl;
      first [ exists []; split; [now rewrite app_nil_r | simpl; tauto]
            | eexists; split; [reflexivity | simpl; intuition congruence] ].
  - intros e0 -> ->. unfold_init. simpl. rewrite String.eqb_refl. simpl.
    case_split; auto.
Qed.

Lemma frames_reused_without_force_witness :
  scotland_cases_data (cls (construct steady_net false "ltla" (first_use steady_net)))
    = scotland_cases_data (cls (first_use steady_net)) /\
  england_cases_data (cls (construct dead_net false "utla" (first_use steady_net)))
    = england_cases_data (cls (first_use steady_net)).
Proof.
  destruct (frames_reused_without_force steady_net "ltla" (first_use steady_net))
    as [Hs _].
  destruct (frames_reused_without_force dead_net "utla" (first_use steady_net))
    as [_ He].
  split.
  - destruct (scotland_cases_data (cls (first_use steady_net))) as [s|] eqn:E.
    + now destruct (Hs s eq_refl).
    + vm_compute in E. discriminate.
  - destruct (england_cases_data (cls (first_use steady_net))) as [e|] eqn:E.
    + destruct (He e eq_refl) as [H _]; [vm_compute; reflexivity | exact H].
    + vm_compute in E. discriminate.
Defined.

(** X11. When the England branch is entered and the download fails, the
    constructor raises after that single request: the three frames are
    what they were, nothing else is requested, and the attribute
    [england_area_type] already holds the new area type. *)
Theorem failed_england_download (net : Net) (force_load : bool) (a : string)
    (p : Process) :
  england_cases_data (cls p) = None \/ force_load = true \/
  (exists b, england_area_type (cls p) = Some b /\ b <> a) ->
  net (length (requests p)) (cases_url a) = None ->
  snd (UKCovid19Data.__init__ net force_load a p) = Raised URLError /\
  requests (construct net force_load a p) = requests p ++ [cases_url a] /\
  england_cases_data (cls (construct net force_load a p)) = england_cases_data (cls p) /\
  wales_cases_data (cls (construct net force_load a p)) = wales_cases_data (cls p) /\
  scotland_cases_data (cls (construct net force_load a p)) = scotland_cases_data (cls p) /\
  england_area_type (cls (construct net force_load a p)) = Some a.
Proof.
  destruct p as [[e w t s ty] rq lw]. simpl. intros Hin Hnet.
  destruct Hin as [->|[->|(b & -> & Hb)]]; unfold_init; simpl.
  - rewrite Hnet. simpl. auto 10.
  - destruct e; simpl; rewrite Hnet; simpl; auto 10.
  - apply String.eqb_neq in Hb.
    destruct e; simpl; [destruct force_load; simpl; rewrite ?Hb; simpl|];
      rewrite Hnet; simpl; auto 10.
Qed.

Lemma failed_england_download_witness :
  snd (UKCovid19Data.__init__ dead_net false "utla" startup) = Raised URLError /\
  requests (construct dead_net false "utla" startup) = [cases_url "utla"] /\
  england_area_type (cls (construct dead_net false "utla" startup))
    = Some "utla"%string.
Proof.
  destruct (failed_england_download dead_net false "utla" startup)
    as (H1 & H2 & _ & _ & _ & H3).
  - left. reflexivity.
  - reflexivity.
  - auto.
Defined.

(** X12. In every state a process can reach, a cached England frame and a
    cached Wales frame are backfilled frames of their country: strictly
    ascending date labels without a missing day, no NaN, one cell per row in
    every column, no repeated row key, and every row labelled with the
    country. *)
Theorem cached_cases_frames_are_backfilled (net : Net) (p : Process) :
  reachable net p ->
  (forall df, england_cases_data (cls p) = Some df ->
              backfilled_frame_of "England" df) /\
  (forall df, wales_cases_data (cls p) = Some df ->
              backfilled_frame_of "Wales" df).
Proof.
  intro Hr.
  exact (reachable_frames_satisfy net backfilled_frame_of
           reshape_cases_backfilled p Hr).
Qed.

Lemma cached_cases_frames_are_backfilled_witness :
  exists df,
    wales_cases_data (cls (first_use steady_net)) = Some df /\
    backfilled_frame_of "Wales" df.
Proof.
  destruct (cached_cases_frames_are_backfilled steady_net (first_use steady_net)
              first_use_steady_reachable) as [_ Hw].
  eexists. split; [vm_compute; reflexivity|].
  apply Hw. vm_compute. reflexivity.
Defined.

(** X13. The first construction of a process, when it returns, has made
    exactly three requests, the cases feed twice and the Scotland feed
    once, in that order, whatever [force_load]; the England frame comes from
    the first reply, the Wales frame from the second and the Scotland frame
    from the third. *)
Theorem first_construction (net : Net) (force_load : bool) (a : string) :
  returns (UKCovid19Data.__init__ net force_load a) startup = true ->
  requests (construct net force_load a startup) =
    [cases_url a; cases_url a; SCOTLAND_PATH] /\
  (exists df, england_cases_data (cls (construct net force_load a startup)) = Some df /\
              loaded_from net 0 a "England" df) /\
  (exists df, wales_cases_data (cls (construct net force_load a startup)) = Some df /\
              loaded_from net 1 a "Wales" df) /\
  (exists t df, scotland_cases_data (cls (construct net force_load a startup)) = Some df /\
                net 2%nat SCOTLAND_PATH = Some (ScotlandCsv t) /\
                reshape_scotland t = Returned df) /\
  england_loaded_with (construct net force_load a startup) = Some a.
Proof.
  unfold loaded_from, startup. unfold_init. simpl.
  case_split; try discriminate.
  all: intros _; repeat split; eauto.
Qed.

Lemma first_construction_witness :
  requests (first_use steady_net) =
    [cases_url "utla"; cases_url "utla"; SCOTLAND_PATH] /\
  england_loaded_with (first_use steady_net) = Some "utla"%string.
Proof.
  destruct (first_construction steady_net false "utla") as (H1 & _ & _ & _ & H2).
  - vm_compute. reflexivity.
  - split; assumption.
Defined.

(* ------------------------------------------------------------------ *)
(** ** More on [get_cases_data] *)

Section CombinedRead.

Lemma fillna_no_nan df : no_nan (fillna 0%float df).
Proof.
  unfold no_nan, fillna. simpl. apply Forall_forall. intros c Hc.
  apply in_map_iff in Hc. destruct Hc as (c0 & <- & _). simpl.
  apply Forall_forall. intros x Hx.
  apply in_map_iff in Hx. destruct Hx as (y & <- & _).
  apply fillna_cell_not_nan.
Qed.

Lemma concat_index objs df :
  concat objs = Some df -> index df = flat_map index (somes objs).
Proof.
  unfold concat. destruct (somes objs) as [|f0 rest]; [discriminate|].
  destruct (forallb _ (f0 :: rest)); [now intros [= <-]|].
  destruct (forallb _ rest); [now intros [= <-] | discriminate].
Qed.

Lemma concat_nothing objs : somes objs = [] -> concat objs = None.
Proof.
  unfold concat. now intros ->.
Qed.

Lemma get_cases_data_inv p out :
  snd (UKCovid19Data.get_cases_data p) = Returned out ->
  exists df,
    concat [england_cases_data (cls p); wales_cases_data (cls p);
            scotland_cases_data (cls p)] = Some df /\
    out = fillna 0%float df.
Proof.
  unfold UKCovid19Data.get_cases_data, bind, getattrs, ret, raise.
  destruct (concat _) as [df|]; simpl; [|discriminate].
  intros [= <-]. eauto.
Qed.

Lemma column_of_In d cs vs :
  column_of d cs = Some vs -> In (d, vs) cs.
Proof.
  induction cs as [|c cs IH]; simpl; [discriminate|].
  destruct (Z.eqb_spec (fst c) d) as [<-|_].
  - intros [= <-]. left. now destruct c.
  - intro H. right. now apply IH.
Qed.

Lemma reindexed_length f d :
  well_shaped f -> length (reindexed f d) = length (index f).
Proof.
  intro Hw. unfold reindexed.
  destruct (column_of d (columns f)) as [vs|] eqn:E.
  - apply column_of_In in E. unfold well_shaped in Hw.
    rewrite Forall_forall in Hw. exact (Hw _ E).
  - apply repeat_length.
Qed.

(** The outer join of three frames with unique labels. *)
Lemma concat_three eng wal sco :
  NoDup (labels eng) -> NoDup (labels wal) -> NoDup (labels sco) ->
  concat [Some eng; Some wal; Some sco] =
  Some (mkDataFrame (index eng ++ index wal ++ index sco)
          (map (fun d => (d, reindexed eng d ++ reindexed wal d ++ reindexed sco d))
               (union_labels (labels eng ++ labels wal ++ labels sco)))).
Proof.
  intros Ne Nw Ns. unfold concat.
  change (somes [Some eng; Some wal; Some sco]) with [eng; wal; sco].
  cbv iota beta zeta.
  assert (Hu : forallb (fun f => nodupb (labels f)) [eng; wal; sco] = true).
  { simpl. rewrite !andb_true_iff. repeat split; now apply nodupb_NoDup. }
  rewrite Hu. simpl. rewrite !app_nil_r. f_equal. f_equal.
  apply map_ext. intro d. now rewrite app_nil_r.
Qed.

End CombinedRead.

(** X14. [get_cases_data] never changes the process.  It raises
    ValueError when no frame is cached.  When at least one frame is cached
    and every cached frame has distinct date labels, it returns a frame
    without NaN whose rows are the rows of the cached frames, England first,
    then Wales, then Scotland, a missing frame being skipped, and whose
    labels are, without repetition, the dates that label a column of a
    cached frame. *)
Theorem combined_read_edges (p : Process) :
  let cached := somes [england_cases_data (cls p); wales_cases_data (cls p);
                       scotland_cases_data (cls p)] in
  fst (UKCovid19Data.get_cases_data p) = p /\
  (england_cases_data (cls p) = None ->
   wales_cases_data (cls p) = None ->
   scotland_cases_data (cls p) = None ->
   snd (UKCovid19Data.get_cases_data p) = Raised ValueError) /\
  (cached <> [] ->
   (forall f, In f cached -> NoDup (labels f)) ->
   exists out,
     snd (UKCovid19Data.get_cases_data p) = Returned out /\
     no_nan out /\
     index out = flat_map index cached /\
     NoDup (labels out) /\
     (forall d, In d (labels out) <-> exists f, In f cached /\ In d (labels f))).
Proof.
  cbv zeta. split; [|split].
  - unfold UKCovid19Data.get_cases_data, bind, getattrs, ret, raise.
    now destruct (concat _).
  - intros He Hw Hs.
    unfold UKCovid19Data.get_cases_data, bind, getattrs, ret, raise.
    rewrite He, Hw, Hs. reflexivity.
  - intros Hne Hu.
    unfold UKCovid19Data.get_cases_data, bind, getattrs, ret, raise.
    unfold concat.
    destruct (somes _) as [|f0 rest] eqn:Ec; [congruence|].
    assert (Hall : forallb (fun f => nodupb (labels f)) (f0 :: rest) = true).
    { apply forallb_forall. intros f Hf. apply nodupb_NoDup. now apply Hu. }
    rewrite Hall. eexists. split; [reflexivity|].
    split; [apply fillna_no_nan|].
    split; [reflexivity|].
    rewrite labels_fillna.
    match goal with
    | |- NoDup (labels ?o) /\ _ =>
        assert (Hl : labels o = union_labels (flat_map labels (f0 :: rest)))
          by (unfold labels at 1; cbn [columns]; apply labels_tabulate)
    end.
    rewrite Hl.
    split; [apply union_labels_NoDup|].
    intro d. rewrite union_labels_In. apply in_flat_map.
Qed.

Lemma combined_read_edges_witness :
  snd (UKCovid19Data.get_cases_data startup) = Raised ValueError /\
  exists out,
    snd (UKCovid19Data.get_cases_data uneven_cache) = Returned out /\
    no_nan out /\
    NoDup (labels out).
Proof.
  destruct (combined_read_edges startup) as (_ & Hnone & _).
  destruct (combined_read_edges uneven_cache) as (_ & _ & Hout).
  split; [now apply Hnone|].
  destruct uneven_cache_columns as (Ne & Nw & Ns).
  destruct Hout as (out & Hget & Hn & _ & Hd & _).
  - discriminate.
  - intros f [<-|[<-|[<-|[]]]]; assumption.
  - exists out. auto.
Defined.

(** X15. In every state a process can reach with its three frames cached,
    if the dates of the cached Scotland frame are distinct, the combined
    read returns; the frame it returns has one cell per row in every
    column, holds no NaN, and has no repeated date label. *)
Theorem combined_read_after_construction (net : Net) (p : Process) :
  reachable net p ->
  populated p ->
  (forall s, scotland_cases_data (cls p) = Some s -> NoDup (labels s)) ->
  exists out,
    UKCovid19Data.get_cases_data p = (p, Returned out) /\
    well_shaped out /\
    no_nan out /\
    NoDup (labels out).
Proof.
  intros Hr (He & Hw & Hs) Hdates.
  destruct (reachable_frames_satisfy net backfilled_frame_of
              reshape_cases_backfilled p Hr) as [HE HW].
  assert (HS := reachable_scotland_satisfies net well_shaped
                  reshape_scotland_well_shaped p Hr).
  destruct (england_cases_data (cls p)) as [eng|] eqn:Ee; [|congruence].
  destruct (wales_cases_data (cls p)) as [wal|] eqn:Ew; [|congruence].
  destruct (scotland_cases_data (cls p)) as [sco|] eqn:Es; [|congruence].
  destruct (HE eng eq_refl) as (Hel & _ & _ & Hes & _).
  destruct (HW wal eq_refl) as (Hwl & _ & _ & Hws & _).
  specialize (HS sco eq_refl). specialize (Hdates sco eq_refl).
  apply strict_nodup in Hel, Hwl.
  unfold UKCovid19Data.get_cases_data, bind, getattrs, ret.
  rewrite Ee, Ew, Es, (concat_three eng wal sco Hel Hwl Hdates).
  eexists. split; [reflexivity|].
  split; [|split].
  - unfold well_shaped, fillna. simpl.
    apply Forall_forall. intros c Hc.
    apply in_map_iff in Hc. destruct Hc as (c0 & <- & Hc0).
    apply in_map_iff in Hc0. destruct Hc0 as (d & <- & _). simpl.
    rewrite length_map, !length_app, !reindexed_length by assumption.
    reflexivity.
  - apply fillna_no_nan.
  - rewrite labels_fillna. unfold labels. simpl.
    rewrite (labels_tabulate (fun d => _ ++ _)).
    apply union_labels_NoDup.
Qed.

Lemma combined_read_after_construction_witness :
  exists out,
    UKCovid19Data.get_cases_data (first_use steady_net)
      = (first_use steady_net, Returned out) /\
    well_shaped out /\
    no_nan out /\
    NoDup (labels out).
Proof.
  apply (combined_read_after_construction steady_net).
  - exact first_use_steady_reachable.
  - exact first_use_steady_populated.
  - intros s Hs. vm_compute in Hs. injection Hs as <-.
    unfold labels. simpl.
    repeat constructor; simpl; intuition discriminate.
Defined.
